(** * car_wash.dbpool: bounded pools of database connections

    A shallow embedding of [car_wash/dbpool.py] and the properties of its
    two pool classes, [RODBPool] (read only) and [RWDBPool] (read write).

    Python objects with identity (connections, cursors) are natural numbers
    handed out by the driver; the pool object is a record that every method
    receives and returns; calls on the driver, on the logger and on the
    lock are recorded, in program order, in the trace a method emits.
    Exceptions and the unbounded [while] loop of [_get_connection] are
    outcomes of the monad [M]. *)

From Stdlib Require Import ZArith List String Bool Lia.
Import ListNotations.
Open Scope string_scope.
Open Scope Z_scope.
Open Scope list_scope.

Set Implicit Arguments.

(** ** Driver objects and exceptions *)

(** A [psycopg2] connection object, known by its identity.  Connection
    objects define neither [__bool__] nor [__len__]: all of them are true
    in [while not connection]. *)
Definition conn := nat.

(** A cursor object, known by its identity. *)
Definition cursor := nat.

(** What a Python call can raise.  [except psycopg2.Error] takes
    [psycopg2.Error] and all its subclasses, and nothing else. *)
Inductive exn : Type :=
| Psycopg2Error (subclass : string) (msg : string)
    (* [psycopg2.Error] itself (subclass "Error") or one of its subclasses *)
| PyException (cls : string) (msg : string).
    (* any exception that is not an instance of [psycopg2.Error] *)

Definition is_psycopg2_Error (e : exn) : bool :=
  match e with
  | Psycopg2Error _ _ => true
  | PyException _ _ => false
  end.

(** [psycopg2.Error('Invalid query.')] *)
Definition invalid_query : exn := Psycopg2Error "Error" "Invalid query.".

(** ** Traces *)

Inductive event : Type :=
| Lock_acquire                       (* entering [with self._lock] *)
| Lock_release                       (* leaving it *)
| Pool_pop (c : conn)                (* [self._pool.pop()] gave [c] *)
| Pool_append (c : conn)             (* [self._pool.append(c)] *)
| Created_incr                       (* [self._conn_created += 1] *)
| Psycopg2_connect (dbname user password host : string) (r : exn + conn)
| Conn_cursor (c : conn) (r : exn + cursor)      (* [c.cursor()] *)
| Cursor_execute (cur : cursor) (stmt : string)  (* done by the with-body *)
| Conn_commit (c : conn) (r : option exn)        (* [c.commit()] *)
| Conn_close (c : conn)                          (* [c.close()] *)
| Cursor_close (cur : cursor)                    (* [cur.close()] *)
| Log_info (logger msg : string)
| Log_error (logger msg : string)
| Sleep.                                         (* [time.sleep(0.1)] *)

(** ** The pool object *)

(** The attributes [__init__] sets, but for [_lock]: a method that
    returns or raises has left every [with self._lock] it entered, so
    between two calls the lock is free. *)
Record DBPool : Type := mkDBPool {
  _pool : list conn;        (* a Python list: append and pop at the end *)
  _hostname : string;
  _password : string;
  _username : string;
  _dbname : string;
  _pool_size : Z;
  _conn_created : Z;
  _log : string             (* the name of the logger *)
}.

Definition set_pool (l : list conn) (p : DBPool) : DBPool :=
  mkDBPool l (_hostname p) (_password p) (_username p) (_dbname p)
           (_pool_size p) (_conn_created p) (_log p).

Definition set_conn_created (n : Z) (p : DBPool) : DBPool :=
  mkDBPool (_pool p) (_hostname p) (_password p) (_username p) (_dbname p)
           (_pool_size p) n (_log p).

(** [list.pop()]: the last item and the list without it. *)
Definition list_pop (A : Type) (l : list A) : option (A * list A) :=
  match rev l with
  | [] => None
  | x :: r => Some (x, rev r)
  end.

(** ** The monad of methods *)

Inductive outcome (A : Type) : Type :=
| Return (a : A)          (* the call returned [a] *)
| Raise (e : exn)         (* the call raised [e] *)
| Blocked.                (* the call is still in its loop *)
Arguments Raise {A} e.
Arguments Blocked {A}.

(** A method: from the pool object to an outcome, the pool object
    afterwards and the trace emitted. *)
Definition M (A : Type) : Type := DBPool -> outcome A * DBPool * list event.

Definition ret (A : Type) (a : A) : M A := fun p => (Return a, p, []).

Definition raise (A : Type) (e : exn) : M A := fun p => (Raise e, p, []).

Definition blocked (A : Type) : M A := fun p => (Blocked, p, []).

Definition bind (A B : Type) (m : M A) (k : A -> M B) : M B :=
  fun p =>
    match m p with
    | (Return a, p1, t1) =>
        match k a p1 with
        | (r, p2, t2) => (r, p2, t1 ++ t2)
        end
    | (Raise e, p1, t1) => (Raise e, p1, t1)
    | (Blocked, p1, t1) => (Blocked, p1, t1)
    end.

Declare Scope method_scope.
Delimit Scope method_scope with method.
Notation "x <- m ;; k" := (bind m (fun x => k))
  (at level 100, m at next level, right associativity) : method_scope.
Notation "m ;; k" := (bind m (fun _ => k))
  (at level 100, right associativity) : method_scope.
Open Scope method_scope.

Definition emit (e : event) : M unit := fun p => (Return tt, p, [e]).

Definition get_self : M DBPool := fun p => (Return p, p, []).

Definition put_self (p' : DBPool) : M unit := fun _ => (Return tt, p', []).

(** A driver call whose result [r] the environment decides. *)
Definition of_result (A : Type) (r : exn + A) : M A :=
  match r with
  | inl e => raise A e
  | inr a => ret a
  end.

(** [try: body / except psycopg2.Error as err: handler / else: orelse /
    finally: final].  The handler takes what [body] raises and only when
    it is a [psycopg2.Error]; what [orelse] raises is not handled; [final]
    runs on every way out, and what it raises replaces what was pending. *)
Definition try_except_else_finally (A B : Type)
    (body : M A) (handler : exn -> M B) (orelse : A -> M B) (final : M unit)
    : M B :=
  fun p =>
    let '(r1, p1, t1) := body p in
    let '(r2, p2, t2) :=
      match r1 with
      | Return a => orelse a p1
      | Raise e => if is_psycopg2_Error e then handler e p1
                   else (Raise e, p1, [])
      | Blocked => (Blocked, p1, [])
      end in
    match r2 with
    | Blocked => (Blocked, p2, t1 ++ t2)
    | _ =>
        match final p2 with
        | (Return _, p3, t3) => (r2, p3, t1 ++ t2 ++ t3)
        | (Raise e, p3, t3) => (Raise e, p3, t1 ++ t2 ++ t3)
        | (Blocked, p3, t3) => (Blocked, p3, t1 ++ t2 ++ t3)
        end
    end.

(** [with self._lock: body]: the lock is released on every way out. *)
Definition with_lock (A : Type) (body : M A) : M A :=
  fun p =>
    match body p with
    | (Blocked, p1, t1) => (Blocked, p1, Lock_acquire :: t1)
    | (r, p1, t1) => (r, p1, Lock_acquire :: t1 ++ [Lock_release])
    end.

(** ** The methods both pool classes share

    [RODBPool] and [RWDBPool] spell out the same [_create_connection],
    [_get_connection] and [_put_connection], statement for statement;
    they are embedded once. *)

(** [_create_connection]: [psycopg2.connect(dbname=..., user=...,
    password=..., host=...)], which returns the connection or raises as
    [connect_result] says. *)
Definition _create_connection (connect_result : exn + conn) : M conn :=
  self <- get_self ;;
  emit (Psycopg2_connect (_dbname self) (_username self) (_password self)
                         (_hostname self) connect_result) ;;
  of_result connect_result.

(** One pass through the body of [while not connection]: the connection
    found, or [None] after the sleep. *)
Definition _get_connection_pass (connect_result : exn + conn)
    : M (option conn) :=
  with_lock
    (self <- get_self ;;
     if 0 <? Z.of_nat (List.length (_pool self)) then
       match list_pop (_pool self) with
       | Some (c, rest) =>
           put_self (set_pool rest self) ;;
           emit (Pool_pop c) ;;
           ret (Some c)
       | None => raise _ (PyException "IndexError" "pop from empty list")
       end
     else if _conn_created self <? _pool_size self then
       c <- _create_connection connect_result ;;
       put_self (set_conn_created (_conn_created self + 1) self) ;;
       emit Created_incr ;;
       ret (Some c)
     else
       emit (Log_info (_log self)
                      "No connections available. Wait 0.1 second.") ;;
       emit Sleep ;;
       ret None).

(** [_get_connection], the loop run for at most [fuel] passes. *)
Fixpoint _get_connection (fuel : nat) (connect_result : exn + conn)
    : M conn :=
  match fuel with
  | O => blocked conn
  | S fuel' =>
      connection <- _get_connection_pass connect_result ;;
      match connection with
      | Some c => ret c
      | None => _get_connection fuel' connect_result
      end
  end.

(** [_put_connection]: [self._pool.append(conn)]. *)
Definition _put_connection (c : conn) : M unit :=
  self <- get_self ;;
  put_self (set_pool (_pool self ++ [c]) self) ;;
  emit (Pool_append c).

(** ** Scoped use of a connection *)

(** What the surroundings of one [with] statement decide: the results of
    the driver calls that can fail and the with-body, which executes
    statements on the cursor it is given and then returns a value or
    raises.  [close()], on a connection and on a cursor, and the logger
    return without raising. *)
Record env (V : Type) : Type := mkEnv {
  connect_result : exn + conn;       (* of [psycopg2.connect], if called *)
  cursor_result : exn + cursor;      (* of [conn.cursor()] *)
  work : cursor -> list string * (exn + V);
  commit_result : option exn         (* of [conn.commit()], if called *)
}.

(** [conn.cursor()] *)
Definition conn_cursor (c : conn) (r : exn + cursor) : M cursor :=
  emit (Conn_cursor c r) ;; of_result r.

(** [conn.commit()] *)
Definition conn_commit (c : conn) (r : option exn) : M unit :=
  emit (Conn_commit c r) ;;
  match r with
  | Some e => raise unit e
  | None => ret tt
  end.

(** [yield cursor_] under [@contextmanager]: the with-body runs here, and
    what it raises is raised at the [yield]. *)
Definition yield_ (V : Type) (w : cursor -> list string * (exn + V))
    (cur : cursor) : M V :=
  fun p => (match snd (w cur) with inl e => Raise e | inr v => Return v end,
            p, map (Cursor_execute cur) (fst (w cur))).

Definition str (e : exn) : string :=
  match e with
  | Psycopg2Error _ msg => msg
  | PyException _ msg => msg
  end.

(** ['Issue during work with db: %s' % err] *)
Definition issue_message (err : exn) : string :=
  ("Issue during work with db: " ++ str err)%string.
Arguments issue_message : simpl never.

(** The [except psycopg2.Error as err] clause of both context managers. *)
Definition except_clause (V : Type) (c : conn) (err : exn) : M V :=
  self <- get_self ;;
  emit (Log_error (_log self) (issue_message err)) ;;
  emit (Conn_close c) ;;
  raise V invalid_query.

Module RODBPool.

Definition __init__ (hostname password username dbname : string)
    (pool_size : Z) : DBPool :=
  mkDBPool [] hostname password username dbname pool_size 0 "ro_db_pool".

(** [with pool.connection() as cursor: v = work(cursor)] *)
Definition connection (V : Type) (fuel : nat) (e : env V) : M V :=
  conn <- _get_connection fuel (connect_result e) ;;
  cursor_ <- conn_cursor conn (cursor_result e) ;;
  try_except_else_finally
    (yield_ (work e) cursor_)
    (except_clause V conn)
    (fun v => _put_connection conn ;; ret v)
    (emit (Cursor_close cursor_)).

End RODBPool.

Module RWDBPool.

Definition __init__ (hostname password username dbname : string)
    (pool_size : Z) : DBPool :=
  mkDBPool [] hostname password username dbname pool_size 0 "rw_db_pool".

(** [with pool.transaction() as cursor: v = work(cursor)] *)
Definition transaction (V : Type) (fuel : nat) (e : env V) : M V :=
  conn <- _get_connection fuel (connect_result e) ;;
  cursor_ <- conn_cursor conn (cursor_result e) ;;
  try_except_else_finally
    (yield_ (work e) cursor_)
    (except_clause V conn)
    (fun v => conn_commit conn (commit_result e) ;;
              _put_connection conn ;;
              ret v)
    (emit (Cursor_close cursor_)).

End RWDBPool.

(** ** Reading traces *)

Definition count (f : event -> bool) (t : list event) : nat :=
  List.length (filter f t).

Definition is_pool_append (c : conn) (e : event) : bool :=
  match e with Pool_append c' => Nat.eqb c' c | _ => false end.


Definition is_conn_close (c : conn) (e : event) : bool :=
  match e with Conn_close c' => Nat.eqb c' c | _ => false end.

Definition is_cursor_close (cur : cursor) (e : event) : bool :=
  match e with Cursor_close cur' => Nat.eqb cur' cur | _ => false end.

(** [psycopg2.connect] returned a connection. *)
Definition is_connected (e : event) : bool :=
  match e with Psycopg2_connect _ _ _ _ (inr _) => true | _ => false end.

(** [psycopg2.connect] was called. *)
Definition is_connect_call (e : event) : bool :=
  match e with Psycopg2_connect _ _ _ _ _ => true | _ => false end.

Definition is_any_close (e : event) : bool :=
  match e with Conn_close _ => true | _ => false end.

Definition is_any_commit (e : event) : bool :=
  match e with Conn_commit _ _ => true | _ => false end.

(** A write to [self._pool] or [self._conn_created]. *)
Definition is_mutation (e : event) : bool :=
  match e with
  | Pool_pop _ | Pool_append _ | Created_incr => true
  | _ => false
  end.

(** [guarded held t]: along [t], started with the lock held or not as
    [held] says, every write to the pool's attributes happens while the
    lock is held. *)
Fixpoint guarded (held : bool) (t : list event) : bool :=
  match t with
  | [] => true
  | Lock_acquire :: t' => guarded true t'
  | Lock_release :: t' => guarded false t'
  | e :: t' => (if is_mutation e then held else true) && guarded held t'
  end.

(** The trace of [n] passes that find nothing and sleep. *)
Fixpoint waiting (logger : string) (n : nat) : list event :=
  match n with
  | O => []
  | S n' =>
      [Lock_acquire;
       Log_info logger "No connections available. Wait 0.1 second.";
       Sleep;
       Lock_release] ++ waiting logger n'
  end.

(** ** Sequences of calls on one pool *)

Inductive call (V : Type) : Type :=
| Call_get_connection (fuel : nat) (cr : exn + conn)
| Call_put_connection (c : conn)
| Call_connection (fuel : nat) (e : env V)
| Call_transaction (fuel : nat) (e : env V).
Arguments Call_get_connection {V} fuel cr.
Arguments Call_put_connection {V} c.

(** The pool and the trace after one call, whatever its outcome.  A call
    of [_get_connection] that is still in its loop has left the pool as it
    found it, so what other threads do between its passes is what later
    calls of the sequence do. *)
Definition run_call (V : Type) (k : call V) (p : DBPool)
    : DBPool * list event :=
  match k with
  | Call_get_connection fuel cr =>
      let '(_, p', t) := _get_connection fuel cr p in (p', t)
  | Call_put_connection c =>
      let '(_, p', t) := _put_connection c p in (p', t)
  | Call_connection fuel e =>
      let '(_, p', t) := RODBPool.connection fuel e p in (p', t)
  | Call_transaction fuel e =>
      let '(_, p', t) := RWDBPool.transaction fuel e p in (p', t)
  end.

Fixpoint run_calls (V : Type) (ks : list (call V)) (p : DBPool)
    : DBPool * list event :=
  match ks with
  | [] => (p, [])
  | k :: ks' =>
      let '(p1, t1) := run_call k p in
      let '(p2, t2) := run_calls ks' p1 in
      (p2, t1 ++ t2)
  end.

(** ** Traces of the paths, and pools and with-bodies to run them on *)

Definition popped (c : conn) : list event :=
  [Lock_acquire; Pool_pop c; Lock_release].

Definition connected (p : DBPool) (r : exn + conn) : list event :=
  [Lock_acquire;
   Psycopg2_connect (_dbname p) (_username p) (_password p) (_hostname p) r]
  ++ match r with inr _ => [Created_incr] | inl _ => [] end
  ++ [Lock_release].

(** The four ways a call of [_get_connection] can go. *)
Inductive get_connection_spec (fuel : nat) (cr : exn + conn) (p : DBPool)
    : outcome conn * DBPool * list event -> Prop :=
| Got_idle (rest : list conn) (c : conn) :
    fuel <> O -> _pool p = rest ++ [c] ->
    get_connection_spec fuel cr p (Return c, set_pool rest p, popped c)
| Got_new (c : conn) :
    fuel <> O -> _pool p = [] -> _conn_created p < _pool_size p ->
    cr = inr c ->
    get_connection_spec fuel cr p
      (Return c, set_conn_created (_conn_created p + 1) p, connected p cr)
| Connect_failed (e : exn) :
    fuel <> O -> _pool p = [] -> _conn_created p < _pool_size p ->
    cr = inl e ->
    get_connection_spec fuel cr p (Raise e, p, connected p cr)
| Still_waiting :
    fuel = O \/ (_pool p = [] /\ _pool_size p <= _conn_created p) ->
    get_connection_spec fuel cr p (Blocked, p, waiting (_log p) fuel).

(** What a [with] block leaves in the trace once it has its connection:
    the cursor is taken, the body executes its statements, and [tail]. *)
Definition session (c : conn) (cur : cursor) (stmts : list string)
    (tail : list event) : list event :=
  Conn_cursor c (inr cur) :: map (Cursor_execute cur) stmts ++ tail.

(** The pool a class builds in [__init__]. *)
Definition new_pool (rw : bool) (hostname password username dbname : string)
    (pool_size : Z) : DBPool :=
  if rw then RWDBPool.__init__ hostname password username dbname pool_size
  else RODBPool.__init__ hostname password username dbname pool_size.

Definition reader_pool : DBPool :=
  new_pool false "db" "pw" "reader" "carwash" 2.

Definition writer_pool : DBPool :=
  new_pool true "db" "pw" "writer" "carwash" 2.

(** A with-body that runs one query and returns 42. *)
Definition env_returning : env Z :=
  mkEnv (inr 7%nat) (inr 1%nat)
        (fun _ => (["SELECT * FROM orders"], inr 42)) None.

(** A with-body whose work is fine and whose [commit] then fails. *)
Definition env_commit_fails : env Z :=
  mkEnv (inr 7%nat) (inr 1%nat)
        (fun _ => (["UPDATE orders SET paid = true"], inr 1))
        (Some (Psycopg2Error "OperationalError"
                             "server closed the connection unexpectedly")).

(** A with-body that raises a [ValueError] of the caller's own. *)
Definition env_value_error : env Z :=
  mkEnv (inr 7%nat) (inr 1%nat)
        (fun _ => (["SELECT * FROM cars"],
                   inl (PyException "ValueError" "bad plate number")))
        None.

(** A with-body whose second statement the database rejects. *)
Definition env_db_error : env Z :=
  mkEnv (inr 7%nat) (inr 1%nat)
        (fun _ => (["INSERT INTO cars VALUES (1)"; "INSERT INTO cars"],
                   inl (Psycopg2Error "ProgrammingError" "syntax error")))
        None.

(** A with-body that updates one row, after which [commit] succeeds. *)
Definition env_update : env Z :=
  mkEnv (inr 7%nat) (inr 1%nat)
        (fun _ => (["UPDATE orders SET paid = true"], inr 1)) None.

(** ** The lock, sleeping, and runs of calls *)

(** [locks held t]: the state of the lock after [t], started held or not
    as [held] says; [None] when [t] acquires the lock while it is held (a
    [threading.Lock] is not reentrant: the thread would wait for itself)
    or releases it while it is free (a [RuntimeError]). *)
Fixpoint locks (held : bool) (t : list event) : option bool :=
  match t with
  | [] => Some held
  | Lock_acquire :: t' => if held then None else locks true t'
  | Lock_release :: t' => if held then locks false t' else None
  | _ :: t' => locks held t'
  end.

(** Every [time.sleep] along [t] happens while the lock is held. *)
Fixpoint sleeps_locked (held : bool) (t : list event) : bool :=
  match t with
  | [] => true
  | Lock_acquire :: t' => sleeps_locked true t'
  | Lock_release :: t' => sleeps_locked false t'
  | Sleep :: t' => held && sleeps_locked held t'
  | _ :: t' => sleeps_locked held t'
  end.

Definition is_sleep (e : event) : bool :=
  match e with Sleep => true | _ => false end.

Definition is_any_cursor_close (e : event) : bool :=
  match e with Cursor_close _ => true | _ => false end.

(** [psycopg2.connect] is called with the credentials of [p], or [e] is no
    call of it. *)
Definition connects_as (p : DBPool) (e : event) : Prop :=
  match e with
  | Psycopg2_connect dbname user password host _ =>
      dbname = _dbname p /\ user = _username p /\
      password = _password p /\ host = _hostname p
  | _ => True
  end.

(** What [__init__] is given and no method assigns again. *)
Definition configuration (p : DBPool)
    : string * string * string * string * Z * string :=
  (_hostname p, _password p, _username p, _dbname p, _pool_size p, _log p).

(** [for c in cs: pool._put_connection(c)] *)
Fixpoint put_all (cs : list conn) : M unit :=
  match cs with
  | [] => ret tt
  | c :: cs' => _put_connection c ;; put_all cs'
  end.

(** [[pool._get_connection() for _ in range(n)]] *)
Fixpoint get_all (fuel n : nat) (cr : exn + conn) : M (list conn) :=
  match n with
  | O => ret []
  | S n' =>
      c <- _get_connection fuel cr ;;
      l <- get_all fuel n' cr ;;
      ret (c :: l)
  end.

(** A [with] block that, given a new connection, does not reach
    [_put_connection]: [cursor()] raises, or the body raises, or, for
    [transaction()] ([rw]), [commit] raises. *)
Definition loses_connection (V : Type) (rw : bool) (e : env V) : bool :=
  match connect_result e, cursor_result e with
  | inr _, inl _ => true
  | inr _, inr cur =>
      match snd (work e cur), commit_result e with
      | inl _, _ => true
      | inr _, Some _ => rw
      | inr _, None => false
      end
  | inl _, _ => false
  end.

(** A call of [connection()] or [transaction()], given at least one pass
    of the loop, that loses its connection. *)
Definition losing_call (V : Type) (k : call V) : bool :=
  match k with
  | Call_connection (S _) e => loses_connection false e
  | Call_transaction (S _) e => loses_connection true e
  | _ => false
  end.

(** No direct call of [_put_connection]. *)
Definition no_raw_put (V : Type) (k : call V) : bool :=
  match k with
  | Call_put_connection _ => false
  | _ => true
  end.

(** A with-block on a connection the server has dropped. *)
Definition env_cursor_fails : env Z :=
  mkEnv (inr 7%nat)
        (inl (Psycopg2Error "InterfaceError" "connection already closed"))
        (fun _ => (["SELECT 1"], inr 1)) None.

(** [t] without its calls of [commit]. *)
Definition erase_commits (t : list event) : list event :=
  filter (fun ev => negb (is_any_commit ev)) t.

(** * Properties *)

(** ** Sequencing *)

Lemma bind_return (A B : Type) (m : M A) (k : A -> M B) (p p1 : DBPool)
    (a : A) (t1 : list event) :
  m p = (Return a, p1, t1) ->
  bind m k p = (let '(r, p2, t2) := k a p1 in (r, p2, t1 ++ t2)).
Proof. intros H. unfold bind. now rewrite H. Qed.

(** ** Lists as Python lists *)

Lemma list_pop_app (A : Type) (l : list A) (x : A) :
  list_pop (l ++ [x]) = Some (x, l).
Proof.
  unfold list_pop. rewrite rev_app_distr. simpl.
  now rewrite rev_involutive.
Qed.

Lemma list_end (A : Type) (l : list A) :
  l = [] \/ exists rest x, l = rest ++ [x].
Proof.
  destruct l as [|a l]; [now left | right].
  exists (removelast (a :: l)), (last (a :: l) a).
  apply app_removelast_last. discriminate.
Qed.

Lemma set_pool_same (p : DBPool) : set_pool (_pool p) p = p.
Proof. now destruct p. Qed.

(** ** Counting in traces *)

Lemma count_app (f : event -> bool) (t u : list event) :
  count f (t ++ u) = (count f t + count f u)%nat.
Proof. unfold count. now rewrite filter_app, length_app. Qed.

Lemma count_executes (f : event -> bool) (cur : cursor) (l : list string) :
  (forall s, f (Cursor_execute cur s) = false) ->
  count f (map (Cursor_execute cur) l) = 0%nat.
Proof.
  intros Hf. unfold count.
  induction l as [|s l IH]; simpl; [reflexivity|].
  now rewrite Hf.
Qed.

Lemma count_waiting (f : event -> bool) (logger : string) (n : nat) :
  f Lock_acquire = false -> f Lock_release = false -> f Sleep = false ->
  (forall m, f (Log_info logger m) = false) ->
  count f (waiting logger n) = 0%nat.
Proof.
  intros Ha Hr Hs Hl. unfold count.
  induction n as [|n IH]; simpl; [reflexivity|].
  now rewrite Ha, Hl, Hs, Hr.
Qed.

Lemma guarded_waiting (held : bool) (logger : string) (n : nat) :
  guarded held (waiting logger n) = true.
Proof.
  revert held. induction n as [|n IH]; intros held; simpl; [reflexivity|].
  apply IH.
Qed.

(** ** One pass of the loop *)

Section Passes.

Variable p : DBPool.
Variable cr : exn + conn.

Lemma pass_pop (rest : list conn) (c : conn) :
  _pool p = rest ++ [c] ->
  _get_connection_pass cr p
  = (Return (Some c), set_pool rest p,
     [Lock_acquire; Pool_pop c; Lock_release]).
Proof.
  intros H. unfold _get_connection_pass, with_lock, bind, get_self.
  rewrite H, list_pop_app.
  destruct (0 <? Z.of_nat (List.length (rest ++ [c]))) eqn:E;
    [reflexivity|].
  apply Z.ltb_ge in E. rewrite length_app in E. simpl in E. lia.
Qed.

Lemma pass_wait :
  _pool p = [] -> _pool_size p <= _conn_created p ->
  _get_connection_pass cr p
  = (Return None, p, waiting (_log p) 1).
Proof.
  intros H Hfull. unfold _get_connection_pass, with_lock, bind, get_self.
  rewrite H. simpl.
  replace (_conn_created p <? _pool_size p) with false
    by (symmetry; apply Z.ltb_ge; lia).
  reflexivity.
Qed.

End Passes.

Lemma pass_create (p : DBPool) (c : conn) :
  _pool p = [] -> _conn_created p < _pool_size p ->
  _get_connection_pass (inr c) p
  = (Return (Some c), set_conn_created (_conn_created p + 1) p,
     [Lock_acquire;
      Psycopg2_connect (_dbname p) (_username p) (_password p) (_hostname p)
                       (inr c);
      Created_incr; Lock_release]).
Proof.
  intros H Hroom. unfold _get_connection_pass, with_lock, bind, get_self.
  rewrite H. simpl.
  replace (_conn_created p <? _pool_size p) with true
    by (symmetry; apply Z.ltb_lt; lia).
  reflexivity.
Qed.

Lemma pass_connect_fails (p : DBPool) (e : exn) :
  _pool p = [] -> _conn_created p < _pool_size p ->
  _get_connection_pass (inl e) p
  = (Raise e, p,
     [Lock_acquire;
      Psycopg2_connect (_dbname p) (_username p) (_password p) (_hostname p)
                       (inl e);
      Lock_release]).
Proof.
  intros H Hroom. unfold _get_connection_pass, with_lock, bind, get_self.
  rewrite H. simpl.
  replace (_conn_created p <? _pool_size p) with true
    by (symmetry; apply Z.ltb_lt; lia).
  reflexivity.
Qed.

(** ** [_get_connection] *)

Lemma get_connection_pop (fuel : nat) (cr : exn + conn) (p : DBPool)
    (rest : list conn) (c : conn) :
  _pool p = rest ++ [c] ->
  _get_connection (S fuel) cr p = (Return c, set_pool rest p, popped c).
Proof.
  intros H. simpl. unfold bind. now rewrite (@pass_pop p cr rest c H).
Qed.

Lemma get_connection_create (fuel : nat) (p : DBPool) (c : conn) :
  _pool p = [] -> _conn_created p < _pool_size p ->
  _get_connection (S fuel) (inr c) p
  = (Return c, set_conn_created (_conn_created p + 1) p,
     connected p (inr c)).
Proof.
  intros H Hroom. simpl. unfold bind. now rewrite pass_create.
Qed.

Lemma get_connection_connect_fails (fuel : nat) (p : DBPool) (e : exn) :
  _pool p = [] -> _conn_created p < _pool_size p ->
  _get_connection (S fuel) (inl e) p = (Raise e, p, connected p (inl e)).
Proof.
  intros H Hroom. simpl. unfold bind. now rewrite pass_connect_fails.
Qed.

(** With nothing idle and nothing left to create, the loop goes on for
    as many passes as it is given and leaves the pool as it was. *)
Lemma get_connection_blocked (fuel : nat) (cr : exn + conn) (p : DBPool) :
  _pool p = [] -> _pool_size p <= _conn_created p ->
  _get_connection fuel cr p = (Blocked, p, waiting (_log p) fuel).
Proof.
  intros H Hfull. induction fuel as [|fuel IH]; [reflexivity|].
  simpl. unfold bind. rewrite (@pass_wait p cr H Hfull), IH. reflexivity.
Qed.

Lemma get_connection_inv (fuel : nat) (cr : exn + conn) (p : DBPool) :
  get_connection_spec fuel cr p (_get_connection fuel cr p).
Proof.
  destruct fuel as [|fuel].
  - apply Still_waiting. now left.
  - destruct (list_end (_pool p)) as [Hnil | (rest & c & Hl)].
    + destruct (Z.lt_ge_cases (_conn_created p) (_pool_size p)) as [Hlt|Hge].
      * destruct cr as [e|c].
        -- rewrite get_connection_connect_fails by assumption.
           now apply Connect_failed.
        -- rewrite get_connection_create by assumption.
           now apply Got_new.
      * rewrite get_connection_blocked by assumption.
        apply Still_waiting. now right.
    + rewrite (@get_connection_pop fuel cr p rest c Hl). now apply Got_idle.
Qed.

(** [_put_connection], in one step. *)
Lemma put_connection_eq (c : conn) (p : DBPool) :
  _put_connection c p
  = (Return tt, set_pool (_pool p ++ [c]) p, [Pool_append c]).
Proof. reflexivity. Qed.

(** What [_get_connection] leaves in its trace: nothing but the lock, the
    pop or the creation, and the waiting. *)
Lemma get_connection_count (f : event -> bool) (fuel : nat)
    (cr : exn + conn) (p : DBPool) :
  f Lock_acquire = false -> f Lock_release = false -> f Sleep = false ->
  f Created_incr = false ->
  (forall l m, f (Log_info l m) = false) ->
  (forall c, f (Pool_pop c) = false) ->
  (forall a b c d r, f (Psycopg2_connect a b c d r) = false) ->
  count f (snd (_get_connection fuel cr p)) = 0%nat.
Proof.
  intros Ha Hr Hs Hi Hl Hp Hc.
  destruct (get_connection_inv fuel cr p); simpl snd.
  - unfold count, popped. simpl. now rewrite Ha, Hp, Hr.
  - subst cr. unfold count, connected. simpl. now rewrite Ha, Hc, Hi, Hr.
  - subst cr. unfold count, connected. simpl. now rewrite Ha, Hc, Hr.
  - now apply count_waiting.
Qed.

Lemma get_connection_guarded (fuel : nat) (cr : exn + conn) (p : DBPool) :
  guarded false (snd (_get_connection fuel cr p)) = true.
Proof.
  destruct (get_connection_inv fuel cr p); simpl snd.
  - reflexivity.
  - subst cr. reflexivity.
  - subst cr. reflexivity.
  - apply guarded_waiting.
Qed.

(** [_conn_created] after [_get_connection]: one more for a connection
    created, and never beyond [_pool_size] unless it was already. *)
Lemma get_connection_frame (fuel : nat) (cr : exn + conn) (p : DBPool) :
  let '(_, p', t) := _get_connection fuel cr p in
  _pool_size p' = _pool_size p /\
  _conn_created p' = _conn_created p + Z.of_nat (count is_connected t) /\
  (_conn_created p <= _pool_size p -> _conn_created p' <= _pool_size p') /\
  (count is_connect_call t <> 0%nat -> _conn_created p < _pool_size p).
Proof.
  destruct (get_connection_inv fuel cr p).
  - unfold count, popped. simpl. repeat split; lia.
  - subst cr. unfold count, connected. simpl. repeat split; lia.
  - subst cr. unfold count, connected. simpl. repeat split; lia.
  - rewrite !count_waiting by reflexivity. simpl. repeat split; lia.
Qed.

(** ** The two context managers, path by path *)

Lemma count_session (f : event -> bool) (c : conn) (cur : cursor)
    (stmts : list string) (tail : list event) :
  (forall r, f (Conn_cursor c r) = false) ->
  (forall s, f (Cursor_execute cur s) = false) ->
  count f (session c cur stmts tail) = count f tail.
Proof.
  intros Hc He. unfold session.
  change (count f ([Conn_cursor c (inr cur)]
                   ++ map (Cursor_execute cur) stmts ++ tail) = count f tail).
  rewrite !count_app, (count_executes f cur stmts He).
  unfold count at 1. simpl. now rewrite Hc.
Qed.

Ltac enter_with Hget Hcur Hwork :=
  unfold RODBPool.connection, RWDBPool.transaction, session;
  unfold bind at 1; rewrite Hget;
  unfold bind at 1, conn_cursor; rewrite Hcur; cbn;
  unfold try_except_else_finally, yield_; rewrite Hwork; cbn.

Section Scoped.

Variable V : Type.
Variable fuel : nat.
Variable e : env V.
Variables p p1 : DBPool.
Variable c : conn.
Variable t1 : list event.
Variable cur : cursor.
Variable stmts : list string.

Hypothesis Hget :
  _get_connection fuel (connect_result e) p = (Return c, p1, t1).
Hypothesis Hcur : cursor_result e = inr cur.

Lemma connection_returns (v : V) :
  work e cur = (stmts, inr v) ->
  RODBPool.connection fuel e p
  = (Return v, set_pool (_pool p1 ++ [c]) p1,
     t1 ++ session c cur stmts [Pool_append c; Cursor_close cur]).
Proof. intros Hw. now enter_with Hget Hcur Hw. Qed.

Lemma connection_db_error (x : exn) :
  work e cur = (stmts, inl x) -> is_psycopg2_Error x = true ->
  RODBPool.connection fuel e p
  = (Raise invalid_query, p1,
     t1 ++ session c cur stmts
             [Log_error (_log p1) (issue_message x);
              Conn_close c; Cursor_close cur]).
Proof. intros Hw Hx. enter_with Hget Hcur Hw. now rewrite Hx. Qed.

Lemma connection_other_error (x : exn) :
  work e cur = (stmts, inl x) -> is_psycopg2_Error x = false ->
  RODBPool.connection fuel e p
  = (Raise x, p1, t1 ++ session c cur stmts [Cursor_close cur]).
Proof. intros Hw Hx. enter_with Hget Hcur Hw. now rewrite Hx. Qed.

Lemma transaction_commits (v : V) :
  work e cur = (stmts, inr v) -> commit_result e = None ->
  RWDBPool.transaction fuel e p
  = (Return v, set_pool (_pool p1 ++ [c]) p1,
     t1 ++ session c cur stmts
             [Conn_commit c None; Pool_append c; Cursor_close cur]).
Proof. intros Hw Hc. enter_with Hget Hcur Hw. now rewrite Hc. Qed.

Lemma transaction_commit_fails (v : V) (x : exn) :
  work e cur = (stmts, inr v) -> commit_result e = Some x ->
  RWDBPool.transaction fuel e p
  = (Raise x, p1,
     t1 ++ session c cur stmts [Conn_commit c (Some x); Cursor_close cur]).
Proof. intros Hw Hc. enter_with Hget Hcur Hw. now rewrite Hc. Qed.

Lemma transaction_db_error (x : exn) :
  work e cur = (stmts, inl x) -> is_psycopg2_Error x = true ->
  RWDBPool.transaction fuel e p
  = (Raise invalid_query, p1,
     t1 ++ session c cur stmts
             [Log_error (_log p1) (issue_message x);
              Conn_close c; Cursor_close cur]).
Proof. intros Hw Hx. enter_with Hget Hcur Hw. now rewrite Hx. Qed.

Lemma transaction_other_error (x : exn) :
  work e cur = (stmts, inl x) -> is_psycopg2_Error x = false ->
  RWDBPool.transaction fuel e p
  = (Raise x, p1, t1 ++ session c cur stmts [Cursor_close cur]).
Proof. intros Hw Hx. enter_with Hget Hcur Hw. now rewrite Hx. Qed.

End Scoped.

(** Splits a goal about a [with] block that has its connection and its
    cursor into the five ways the block can go, rewriting both context
    managers by the lemmas above. *)
Ltac on_paths e cur :=
  let stmts := fresh "stmts" in
  let x := fresh "x" in
  let v := fresh "v" in
  let Hw := fresh "Hw" in
  let Hx := fresh "Hx" in
  let Hc := fresh "Hc" in
  destruct (work e cur) as [stmts [x|v]] eqn:Hw;
  [ destruct (is_psycopg2_Error x) eqn:Hx;
    [ erewrite connection_db_error, transaction_db_error by eassumption
    | erewrite connection_other_error, transaction_other_error
        by eassumption ]
  | erewrite connection_returns by eassumption;
    destruct (commit_result e) as [x|] eqn:Hc;
    [ erewrite transaction_commit_fails by eassumption
    | erewrite transaction_commits by eassumption ] ].

(** Before the [try]: no connection, or no cursor. *)
Lemma scoped_not_entered (V : Type) (fuel : nat) (e : env V) (p : DBPool) :
  let '(r, p1, t1) := _get_connection fuel (connect_result e) p in
  match r, cursor_result e with
  | Return c, inl x =>
      RODBPool.connection fuel e p
      = (Raise x, p1, t1 ++ [Conn_cursor c (inl x)]) /\
      RWDBPool.transaction fuel e p
      = (Raise x, p1, t1 ++ [Conn_cursor c (inl x)])
  | Raise x, _ =>
      RODBPool.connection fuel e p = (Raise x, p1, t1) /\
      RWDBPool.transaction fuel e p = (Raise x, p1, t1)
  | Blocked, _ =>
      RODBPool.connection fuel e p = (Blocked, p1, t1) /\
      RWDBPool.transaction fuel e p = (Blocked, p1, t1)
  | Return _, inr _ => True
  end.
Proof.
  destruct (_get_connection fuel (connect_result e) p)
    as [[[c|x|] p1] t1] eqn:Hget.
  - destruct (cursor_result e) as [x|cur] eqn:Hcur; [|exact I].
    unfold RODBPool.connection, RWDBPool.transaction, bind, conn_cursor.
    rewrite Hget, Hcur. now split.
  - unfold RODBPool.connection, RWDBPool.transaction, bind.
    rewrite Hget. now split.
  - unfold RODBPool.connection, RWDBPool.transaction, bind.
    rewrite Hget. now split.
Qed.

(** A [with] block whose pool has an idle connection, or room to create
    one, is through after one pass of the loop: it returns or raises. *)
Lemma scoped_not_blocked (V : Type) (fuel : nat) (e : env V) (p : DBPool) :
  _pool p <> [] \/ _conn_created p < _pool_size p ->
  fst (fst (RODBPool.connection (S fuel) e p)) <> Blocked /\
  fst (fst (RWDBPool.transaction (S fuel) e p)) <> Blocked.
Proof.
  intros Hfree.
  pose proof (scoped_not_entered (S fuel) e p) as Hout.
  pose proof (get_connection_inv (S fuel) (connect_result e) p) as Hinv.
  destruct (_get_connection (S fuel) (connect_result e) p)
    as [[[c|x|] p1] t1] eqn:Hget.
  - destruct (cursor_result e) as [x|cur] eqn:Hcur.
    + destruct Hout as [-> ->]. now split.
    + on_paths e cur; now split.
  - destruct Hout as [-> ->]. now split.
  - exfalso. inversion Hinv as [| | | Hwait].
    destruct Hwait as [Hzero | [Hnil Hfull]]; [discriminate|].
    subst. destruct Hfree as [Hne | Hroom]; [congruence | lia].
Qed.

(** ** What a call does to the counter *)

(** A [with] block changes neither [_pool_size] nor [_conn_created]
    beyond what its [_get_connection] did, and connects no further. *)
Lemma scoped_frame (V : Type) (rw : bool) (fuel : nat) (e : env V)
    (p : DBPool) :
  let '(_, p', t) :=
    if rw then RWDBPool.transaction fuel e p
    else RODBPool.connection fuel e p in
  let '(_, p1, t1) := _get_connection fuel (connect_result e) p in
  _pool_size p' = _pool_size p1 /\
  _conn_created p' = _conn_created p1 /\
  count is_connected t = count is_connected t1.
Proof.
  pose proof (scoped_not_entered fuel e p) as Hout.
  destruct (_get_connection fuel (connect_result e) p)
    as [[[c|x|] p1] t1] eqn:Hget.
  - destruct (cursor_result e) as [x|cur] eqn:Hcur.
    + destruct Hout as [Hro Hrw]. rewrite Hro, Hrw.
      destruct rw; rewrite count_app; cbn; repeat split; lia.
    + on_paths e cur;
        destruct rw; rewrite count_app, count_session by reflexivity;
        cbn; repeat split; lia.
  - destruct Hout as [Hro Hrw]. rewrite Hro, Hrw. now destruct rw.
  - destruct Hout as [Hro Hrw]. rewrite Hro, Hrw. now destruct rw.
Qed.

Lemma call_frame (V : Type) (k : call V) (p : DBPool) :
  let '(p', t) := run_call k p in
  _pool_size p' = _pool_size p /\
  _conn_created p' = _conn_created p + Z.of_nat (count is_connected t) /\
  (_conn_created p <= _pool_size p -> _conn_created p' <= _pool_size p').
Proof.
  destruct k as [fuel cr|c|fuel e|fuel e]; simpl.
  - pose proof (get_connection_frame fuel cr p) as H.
    destruct (_get_connection fuel cr p) as [[r p'] t]. tauto.
  - unfold count. simpl. repeat split; lia.
  - pose proof (scoped_frame false fuel e p) as H.
    pose proof (get_connection_frame fuel (connect_result e) p) as G.
    cbv beta iota in H.
    destruct (RODBPool.connection fuel e p) as [[r p'] t].
    destruct (_get_connection fuel (connect_result e) p) as [[r1 p1] t1].
    destruct H as (Hs & Hc & Ht), G as (Gs & Gc & Gi & _).
    rewrite Hs, Hc, Ht. tauto.
  - pose proof (scoped_frame true fuel e p) as H.
    pose proof (get_connection_frame fuel (connect_result e) p) as G.
    cbv beta iota in H.
    destruct (RWDBPool.transaction fuel e p) as [[r p'] t].
    destruct (_get_connection fuel (connect_result e) p) as [[r1 p1] t1].
    destruct H as (Hs & Hc & Ht), G as (Gs & Gc & Gi & _).
    rewrite Hs, Hc, Ht. tauto.
Qed.

Lemma calls_frame (V : Type) (ks : list (call V)) (p : DBPool) :
  let '(p', t) := run_calls ks p in
  _pool_size p' = _pool_size p /\
  _conn_created p' = _conn_created p + Z.of_nat (count is_connected t) /\
  (_conn_created p <= _pool_size p -> _conn_created p' <= _pool_size p').
Proof.
  revert p. induction ks as [|k ks IH]; intros p; simpl.
  - unfold count. simpl. repeat split; lia.
  - pose proof (call_frame k p) as Hk.
    destruct (run_call k p) as [p1 t1].
    specialize (IH p1). destruct (run_calls ks p1) as [p2 t2].
    rewrite count_app, Nat2Z.inj_add.
    destruct Hk as (Hs & Hc & Hi), IH as (Is & Ic & Ii).
    repeat split; lia.
Qed.

(** * The pool *)

(** C1, as stated, fails: [__init__] takes any integer as [pool_size] and
    sets [_conn_created] to 0, so that on a pool built with capacity -1 the
    counter exceeds the capacity before any call is made. *)
Lemma negative_capacity_counterexample :
  run_calls (@nil (call unit)) (new_pool false "db" "pw" "reader" "carwash" (-1))
  = (RODBPool.__init__ "db" "pw" "reader" "carwash" (-1), []) /\
  _conn_created (RODBPool.__init__ "db" "pw" "reader" "carwash" (-1)) = 0 /\
  _pool_size (RODBPool.__init__ "db" "pw" "reader" "carwash" (-1)) = -1 /\
  ~ (_conn_created (RODBPool.__init__ "db" "pw" "reader" "carwash" (-1))
     <= _pool_size (RODBPool.__init__ "db" "pw" "reader" "carwash" (-1))).
Proof. repeat split. simpl. lia. Qed.

(** C1, amended.  On a pool built with a capacity [pool_size] that is not
    negative, after every sequence of calls of [_get_connection],
    [_put_connection], [connection()] and [transaction()], whatever their
    outcomes: [_conn_created] lies between 0 and [pool_size]; it is the
    number of connections [psycopg2.connect] has returned, so that the
    connections alive, which are among these, are at most [pool_size];
    and a further [_get_connection] calls [psycopg2.connect] only if
    [_conn_created < pool_size]. *)
Theorem capacity_invariant (V : Type) (rw : bool)
    (hostname password username dbname : string) (pool_size : Z)
    (ks : list (call V)) (p : DBPool) (t : list event) :
  0 <= pool_size ->
  run_calls ks (new_pool rw hostname password username dbname pool_size)
  = (p, t) ->
  0 <= _conn_created p <= pool_size /\
  _conn_created p = Z.of_nat (count is_connected t) /\
  Z.of_nat (count is_connected t) <= pool_size /\
  (forall fuel cr,
      count is_connect_call (snd (_get_connection fuel cr p)) <> 0%nat ->
      _conn_created p < pool_size).
Proof.
  intros Hsize Hrun.
  pose proof (calls_frame ks
                (new_pool rw hostname password username dbname pool_size))
    as H.
  rewrite Hrun in H. destruct H as (Hs & Hc & Hi).
  assert (Hs0 : _pool_size p = pool_size) by (rewrite Hs; now destruct rw).
  assert (Hc0 : _conn_created p = Z.of_nat (count is_connected t))
    by (rewrite Hc; now destruct rw).
  assert (Hle : _conn_created p <= pool_size).
  { rewrite <- Hs0. apply Hi. destruct rw; simpl; lia. }
  repeat split; try lia.
  intros fuel cr Hcall.
  pose proof (get_connection_frame fuel cr p) as G.
  destruct (_get_connection fuel cr p) as [[r p'] t'].
  destruct G as (_ & _ & _ & G). rewrite <- Hs0. now apply G.
Qed.

Lemma capacity_invariant_witness :
  let ks : list (call unit) :=
    [Call_get_connection 1 (inr 11%nat);
     Call_get_connection 1 (inr 12%nat);
     Call_get_connection 3 (inr 13%nat);
     Call_put_connection 11%nat;
     Call_get_connection 1 (inr 14%nat)] in
  let p := fst (run_calls ks (new_pool false "db" "pw" "reader" "carwash" 2)) in
  0 <= 2 /\ _conn_created p = 2 /\ _pool p = [].
Proof.
  split; [lia|].
  split; [|reflexivity].
  assert (H : 0 <= 2) by lia.
  pose proof (@capacity_invariant unit false "db" "pw" "reader" "carwash" 2
                [Call_get_connection 1 (inr 11%nat);
                 Call_get_connection 1 (inr 12%nat);
                 Call_get_connection 3 (inr 13%nat);
                 Call_put_connection 11%nat;
                 Call_get_connection 1 (inr 14%nat)]
                _ _ H eq_refl) as (_ & Hc & _).
  exact Hc.
Defined.



(** C9.  When [psycopg2.connect] raises inside [_get_connection], which
    calls it only with [_pool] empty and [_conn_created < _pool_size],
    that exception is what [_get_connection], [connection()] and
    [transaction()] raise, unchanged, and the pool object is as before:
    [_conn_created] and [_pool] are untouched and no connection is
    closed. *)
Theorem connect_failure_propagates (V : Type) (fuel : nat) (e : env V)
    (p : DBPool) (x : exn) :
  _pool p = [] -> _conn_created p < _pool_size p ->
  connect_result e = inl x ->
  _get_connection (S fuel) (connect_result e) p
  = (Raise x, p, connected p (inl x)) /\
  RODBPool.connection (S fuel) e p = (Raise x, p, connected p (inl x)) /\
  RWDBPool.transaction (S fuel) e p = (Raise x, p, connected p (inl x)) /\
  count is_mutation (connected p (inl x)) = 0%nat /\
  count is_any_close (connected p (inl x)) = 0%nat.
Proof.
  intros Hnil Hroom Hx.
  assert (Hget : _get_connection (S fuel) (connect_result e) p
                 = (Raise x, p, connected p (inl x))).
  { rewrite Hx. now apply get_connection_connect_fails. }
  pose proof (scoped_not_entered (S fuel) e p) as Hout.
  rewrite Hget in Hout. destruct Hout as [Hro Hrw].
  repeat split; assumption.
Qed.

Lemma connect_failure_propagates_witness :
  let p := new_pool false "db" "pw" "reader" "carwash" 2 in
  let x := Psycopg2Error "OperationalError" "could not connect to server" in
  let e := mkEnv (inl x) (inr 1%nat)
                 (fun _ : cursor => (["SELECT 1"], inr tt)) None in
  RODBPool.connection 1 e p = (Raise x, p, connected p (inl x)).
Proof.
  assert (Hroom : 0 < 2) by lia.
  exact (proj1 (proj2
    (@connect_failure_propagates unit 0
       (mkEnv (inl (Psycopg2Error "OperationalError"
                                  "could not connect to server"))
              (inr 1%nat) (fun _ : cursor => (["SELECT 1"], inr tt)) None)
       (new_pool false "db" "pw" "reader" "carwash" 2)
       _ eq_refl Hroom eq_refl))).
Defined.


(** C10.  [_put_connection] checks nothing.  Put twice with no
    [_get_connection] in between, a connection is in [_pool] twice, at its
    end; the next two calls of [_get_connection] both return it, creating
    nothing, and leave the pool as it was before the two puts. *)
Theorem double_put_returns_twice (fuel fuel' : nat) (cr cr' : exn + conn)
    (c : conn) (p : DBPool) :
  (_put_connection c ;; _put_connection c) p
  = (Return tt, set_pool (_pool p ++ [c; c]) p,
     [Pool_append c; Pool_append c]) /\
  (_put_connection c ;; _put_connection c ;;
   a <- _get_connection (S fuel) cr ;;
   b <- _get_connection (S fuel') cr' ;;
   ret (a, b)) p
  = (Return (c, c), p,
     [Pool_append c; Pool_append c] ++ popped c ++ popped c).
Proof.
  assert (G1 : _get_connection (S fuel) cr (set_pool (_pool p ++ [c; c]) p)
               = (Return c, set_pool (_pool p ++ [c]) p, popped c)).
  { erewrite get_connection_pop; [reflexivity|].
    simpl. now rewrite <- app_assoc. }
  assert (G2 : _get_connection (S fuel') cr' (set_pool (_pool p ++ [c]) p)
               = (Return c, p, popped c)).
  { erewrite get_connection_pop; [|reflexivity]. now destruct p. }
  assert (P2 : _put_connection c (set_pool (_pool p ++ [c]) p)
               = (Return tt, set_pool (_pool p ++ [c; c]) p,
                  [Pool_append c])).
  { rewrite put_connection_eq. simpl. now rewrite <- app_assoc. }
  split.
  - erewrite bind_return by apply put_connection_eq.
    now rewrite P2.
  - erewrite bind_return by apply put_connection_eq.
    erewrite bind_return by exact P2.
    erewrite bind_return by exact G1.
    erewrite bind_return by exact G2.
    reflexivity.
Qed.

(** * The context managers *)

(** The trace of a [_get_connection] that returned holds none of the
    events the context managers add after it. *)
Lemma get_connection_quiet (f : event -> bool) (fuel : nat)
    (cr : exn + conn) (p p1 : DBPool) (r : outcome conn) (t1 : list event) :
  _get_connection fuel cr p = (r, p1, t1) ->
  f Lock_acquire = false -> f Lock_release = false -> f Sleep = false ->
  f Created_incr = false ->
  (forall l m, f (Log_info l m) = false) ->
  (forall c, f (Pool_pop c) = false) ->
  (forall a b c d x, f (Psycopg2_connect a b c d x) = false) ->
  count f t1 = 0%nat.
Proof.
  intros Hget Ha Hr Hs Hi Hl Hp Hc.
  pose proof (get_connection_count f fuel cr p Ha Hr Hs Hi Hl Hp Hc) as H.
  now rewrite Hget in H.
Qed.

Ltac count_trace Hget :=
  rewrite count_app, count_session by reflexivity;
  erewrite get_connection_quiet by (first [exact Hget | reflexivity]);
  cbn; rewrite ?Nat.eqb_refl; try reflexivity.

(** C8.  When the with-body of [connection()] returns [v], the caller has
    [v]; the connection is appended to [_pool], once, after the body; and
    nothing calls [commit]. *)
Theorem connection_returns_value (V : Type) (fuel : nat) (e : env V)
    (p p1 : DBPool) (c : conn) (t1 : list event) (cur : cursor)
    (stmts : list string) (v : V) :
  _get_connection fuel (connect_result e) p = (Return c, p1, t1) ->
  cursor_result e = inr cur ->
  work e cur = (stmts, inr v) ->
  exists t,
    RODBPool.connection fuel e p
    = (Return v, set_pool (_pool p1 ++ [c]) p1, t) /\
    t = t1 ++ session c cur stmts [Pool_append c; Cursor_close cur] /\
    count (is_pool_append c) t = 1%nat /\
    count is_any_commit t = 0%nat.
Proof.
  intros Hget Hcur Hw. eexists. split; [|split; [reflexivity|]].
  - now apply connection_returns.
  - split; now count_trace Hget.
Qed.

Lemma connection_returns_value_witness :
  fst (fst (RODBPool.connection 1 env_returning reader_pool)) = Return 42 /\
  _pool (snd (fst (RODBPool.connection 1 env_returning reader_pool)))
  = [7%nat].
Proof.
  destruct (@connection_returns_value Z 1 env_returning reader_pool
              (set_conn_created 1 reader_pool) 7%nat
              (connected reader_pool (inr 7%nat)) 1%nat
              ["SELECT * FROM orders"] 42 eq_refl eq_refl eq_refl)
    as (t & Hrun & _).
  rewrite Hrun. split; reflexivity.
Defined.

Lemma session_snoc (c : conn) (cur : cursor) (stmts : list string)
    (tail : list event) (x : event) :
  session c cur stmts (tail ++ [x]) = session c cur stmts tail ++ [x].
Proof. unfold session. simpl. now rewrite app_assoc. Qed.

Lemma closes_last (t1 : list event) (c : conn) (cur : cursor)
    (stmts : list string) (tail : list event) :
  exists t0,
    t1 ++ session c cur stmts (tail ++ [Cursor_close cur])
    = t0 ++ [Cursor_close cur].
Proof.
  exists (t1 ++ session c cur stmts tail).
  now rewrite session_snoc, app_assoc.
Qed.

(** C5.  Once [connection()] or [transaction()] has its cursor, every way
    out closes it, and closing it is the last thing done before the caller
    is back in control: when the with-body returns, when it raises
    (whatever it raises), and when [commit] raises.  The cursor is closed
    once. *)
Theorem cursor_always_closed (V : Type) (fuel : nat) (e : env V)
    (p p1 p' : DBPool) (c : conn) (t1 t : list event) (cur : cursor)
    (r : outcome V) :
  _get_connection fuel (connect_result e) p = (Return c, p1, t1) ->
  cursor_result e = inr cur ->
  RODBPool.connection fuel e p = (r, p', t) \/
  RWDBPool.transaction fuel e p = (r, p', t) ->
  (exists t0, t = t0 ++ [Cursor_close cur]) /\
  count (is_cursor_close cur) t = 1%nat.
Proof.
  intros Hget Hcur Hrun.
  destruct (work e cur) as [stmts [x|v]] eqn:Hw.
  - destruct (is_psycopg2_Error x) eqn:Hx.
    + erewrite connection_db_error, transaction_db_error in Hrun
        by eassumption.
      assert (Ht : t = t1 ++ session c cur stmts
                     ([Log_error (_log p1) (issue_message x); Conn_close c]
                      ++ [Cursor_close cur]))
        by (destruct Hrun as [H|H]; now inversion H).
      subst t. split; [apply closes_last | now count_trace Hget].
    + erewrite connection_other_error, transaction_other_error in Hrun
        by eassumption.
      assert (Ht : t = t1 ++ session c cur stmts ([] ++ [Cursor_close cur]))
        by (destruct Hrun as [H|H]; now inversion H).
      subst t. split; [apply closes_last | now count_trace Hget].
  - erewrite connection_returns in Hrun by eassumption.
    destruct Hrun as [H|H].
    + assert (Ht : t = t1 ++ session c cur stmts
                     ([Pool_append c] ++ [Cursor_close cur]))
        by now inversion H.
      subst t. split; [apply closes_last | now count_trace Hget].
    + destruct (commit_result e) as [x|] eqn:Hc.
      * erewrite transaction_commit_fails in H by eassumption.
        assert (Ht : t = t1 ++ session c cur stmts
                       ([Conn_commit c (Some x)] ++ [Cursor_close cur]))
          by now inversion H.
        subst t. split; [apply closes_last | now count_trace Hget].
      * erewrite transaction_commits in H by eassumption.
        assert (Ht : t = t1 ++ session c cur stmts
                       ([Conn_commit c None; Pool_append c]
                        ++ [Cursor_close cur]))
          by now inversion H.
        subst t. split; [apply closes_last | now count_trace Hget].
Qed.

Lemma cursor_always_closed_witness :
  count (is_cursor_close 1%nat)
        (snd (RWDBPool.transaction 1 env_commit_fails writer_pool))
  = 1%nat.
Proof.
  exact (proj2
    (@cursor_always_closed Z 1 env_commit_fails writer_pool
       (set_conn_created 1 writer_pool) _ 7%nat
       (connected writer_pool (inr 7%nat)) _ 1%nat _
       eq_refl eq_refl (or_intror eq_refl))).
Defined.

(** C2, as stated, fails: the with-body of [connection()] raises a
    [ValueError]; the [except psycopg2.Error] clause does not take it, so
    it leaves the context manager as it is and the connection borrowed is
    never closed (nor put back). *)
Lemma discard_on_any_failure_counterexample :
  RODBPool.connection 1 env_value_error reader_pool
  = (Raise (PyException "ValueError" "bad plate number"),
     set_conn_created 1 reader_pool,
     connected reader_pool (inr 7%nat)
     ++ session 7%nat 1%nat ["SELECT * FROM cars"] [Cursor_close 1%nat]) /\
  count (is_conn_close 7%nat)
        (snd (RODBPool.connection 1 env_value_error reader_pool)) = 0%nat.
Proof. split; reflexivity. Qed.

(** C2, amended.  When the with-body of [connection()] or [transaction()]
    raises, the connection is not appended to [_pool] and [_conn_created]
    is not decremented: the pool object stays as [_get_connection] left
    it.  When what the body raises is a [psycopg2.Error], the connection
    is closed, once. *)
Theorem discard_on_failure (V : Type) (fuel : nat) (e : env V)
    (p p1 p' : DBPool) (c : conn) (t1 t : list event) (cur : cursor)
    (stmts : list string) (x : exn) (r : outcome V) :
  _get_connection fuel (connect_result e) p = (Return c, p1, t1) ->
  cursor_result e = inr cur ->
  work e cur = (stmts, inl x) ->
  RODBPool.connection fuel e p = (r, p', t) \/
  RWDBPool.transaction fuel e p = (r, p', t) ->
  (is_psycopg2_Error x = true -> count (is_conn_close c) t = 1%nat) /\
  count (is_pool_append c) t = 0%nat /\
  p' = p1 /\
  _conn_created p <= _conn_created p'.
Proof.
  intros Hget Hcur Hw Hrun.
  assert (Hmono : _conn_created p <= _conn_created p1).
  { pose proof (get_connection_frame fuel (connect_result e) p) as G.
    rewrite Hget in G. lia. }
  destruct (is_psycopg2_Error x) eqn:Hx.
  - erewrite connection_db_error, transaction_db_error in Hrun
      by eassumption.
    assert (Ht : t = t1 ++ session c cur stmts
                   [Log_error (_log p1) (issue_message x);
                    Conn_close c; Cursor_close cur] /\ p' = p1)
      by (destruct Hrun as [H|H]; now inversion H).
    destruct Ht as [-> ->].
    repeat split; try assumption; try intros _; now count_trace Hget.
  - erewrite connection_other_error, transaction_other_error in Hrun
      by eassumption.
    assert (Ht : t = t1 ++ session c cur stmts [Cursor_close cur] /\ p' = p1)
      by (destruct Hrun as [H|H]; now inversion H).
    destruct Ht as [-> ->].
    repeat split; try assumption; try discriminate; now count_trace Hget.
Qed.

Lemma discard_on_failure_witness :
  count (is_conn_close 7%nat)
        (snd (RODBPool.connection 1 env_db_error reader_pool)) = 1%nat /\
  _pool (snd (fst (RODBPool.connection 1 env_db_error reader_pool))) = [] /\
  _conn_created (snd (fst (RODBPool.connection 1 env_db_error reader_pool)))
  = 1.
Proof.
  destruct (@discard_on_failure Z 1 env_db_error reader_pool
              (set_conn_created 1 reader_pool) _ 7%nat
              (connected reader_pool (inr 7%nat)) _ 1%nat
              ["INSERT INTO cars VALUES (1)"; "INSERT INTO cars"]
              (Psycopg2Error "ProgrammingError" "syntax error") _
              eq_refl eq_refl eq_refl (or_introl eq_refl))
    as (Hclose & _ & Hp & _).
  split; [exact (Hclose eq_refl) | split; reflexivity].
Defined.







(** * The lock *)

(** C7 does not hold of the code.  [_get_connection] writes to [_pool] and
    [_conn_created] inside [with self._lock]; [_put_connection] appends to
    [_pool] without taking the lock, in both classes. *)
Theorem put_connection_without_lock (c : conn) (p : DBPool) :
  _put_connection c p
  = (Return tt, set_pool (_pool p ++ [c]) p, [Pool_append c]) /\
  guarded false (snd (_put_connection c p)) = false /\
  (forall fuel cr, guarded false (snd (_get_connection fuel cr p)) = true).
Proof.
  split; [reflexivity | split; [reflexivity|]].
  intros fuel cr. apply get_connection_guarded.
Qed.

(** * Beyond the pool's bound *)

(** ** Waiting *)

(** X1.  With nothing idle and [_conn_created] at [_pool_size] or beyond,
    [_get_connection] does not return however many passes it is given,
    and neither do [connection()] and [transaction()], which do not get
    as far as the cursor: every pass logs, sleeps once and leaves the pool
    as it was, and [psycopg2.connect] is not called. *)
Theorem exhausted_pool_blocks (V : Type) (fuel : nat) (e : env V)
    (p : DBPool) :
  _pool p = [] -> _pool_size p <= _conn_created p ->
  _get_connection fuel (connect_result e) p
  = (Blocked, p, waiting (_log p) fuel) /\
  RODBPool.connection fuel e p = (Blocked, p, waiting (_log p) fuel) /\
  RWDBPool.transaction fuel e p = (Blocked, p, waiting (_log p) fuel) /\
  count is_sleep (waiting (_log p) fuel) = fuel /\
  count is_connect_call (waiting (_log p) fuel) = 0%nat.
Proof.
  intros Hnil Hfull.
  assert (Hget : _get_connection fuel (connect_result e) p
                 = (Blocked, p, waiting (_log p) fuel))
    by now apply get_connection_blocked.
  pose proof (scoped_not_entered fuel e p) as Hout.
  rewrite Hget in Hout. destruct Hout as [Hro Hrw].
  repeat split; try assumption.
  - clear. induction fuel as [|n IH]; [reflexivity|].
    simpl. unfold count in *. simpl. now rewrite IH.
  - now apply count_waiting.
Qed.

Lemma exhausted_pool_blocks_witness :
  RODBPool.connection 3 env_returning
    (set_conn_created 2 reader_pool)
  = (Blocked, set_conn_created 2 reader_pool, waiting "ro_db_pool" 3).
Proof.
  assert (Hfull : 2 <= 2) by lia.
  exact (proj1 (proj2
    (@exhausted_pool_blocks Z 3 env_returning
       (set_conn_created 2 reader_pool) eq_refl Hfull))).
Defined.

(** What [_get_connection] raises is what [psycopg2.connect] raised, in
    the one state in which it is called. *)
Lemma get_connection_raise_inv (fuel : nat) (cr : exn + conn)
    (p p' : DBPool) (x : exn) (t : list event) :
  _get_connection fuel cr p = (Raise x, p', t) ->
  cr = inl x /\ p' = p /\ t = connected p (inl x) /\
  _pool p = [] /\ _conn_created p < _pool_size p.
Proof.
  intros Hget.
  pose proof (get_connection_inv fuel cr p) as Hinv.
  rewrite Hget in Hinv.
  inversion Hinv as [| |x' Hfuel Hnil Hroom Hcr|]; subst.
  repeat split; assumption.
Qed.

(** X8.  [_get_connection] raises nothing of its own: [pop] is never
    called on an empty list, and when the call raises, [_pool] was empty,
    [_conn_created] was below [_pool_size], the exception is the one
    [psycopg2.connect] raised, and the pool object is untouched. *)
Theorem get_connection_raises_only_connect_error (fuel : nat)
    (cr : exn + conn) (p p' : DBPool) (x : exn) (t : list event) :
  _get_connection fuel cr p = (Raise x, p', t) ->
  cr = inl x /\ p' = p /\
  _pool p = [] /\ _conn_created p < _pool_size p /\
  count is_mutation t = 0%nat.
Proof.
  intros Hget. apply get_connection_raise_inv in Hget.
  destruct Hget as (Hcr & Hp & Ht & Hnil & Hroom).
  repeat split; try assumption. now subst t.
Qed.

Lemma get_connection_raises_only_connect_error_witness :
  let x := Psycopg2Error "OperationalError" "connection refused" in
  _get_connection 1 (inl x) writer_pool
  = (Raise x, writer_pool, connected writer_pool (inl x)) /\
  _conn_created writer_pool < _pool_size writer_pool.
Proof.
  split; [reflexivity|].
  exact (proj1 (proj2 (proj2 (proj2
    (@get_connection_raises_only_connect_error 1
       (inl (Psycopg2Error "OperationalError" "connection refused"))
       writer_pool _ _ _ eq_refl))))).
Defined.

(** ** The lock along a run *)

Lemma locks_app (held : bool) (t u : list event) :
  locks held (t ++ u)
  = match locks held t with
    | Some held' => locks held' u
    | None => None
    end.
Proof.
  revert held. induction t as [|ev t IH]; intros held; [reflexivity|].
  destruct ev; simpl; try apply IH; destruct held; try reflexivity; apply IH.
Qed.

Lemma sleeps_locked_app (held held' : bool) (t u : list event) :
  locks held t = Some held' ->
  sleeps_locked held (t ++ u) = sleeps_locked held t && sleeps_locked held' u.
Proof.
  revert held. induction t as [|ev t IH]; intros held Hl.
  - simpl in Hl. injection Hl as ->. reflexivity.
  - destruct ev; simpl in *; try (now apply IH);
      destruct held; try discriminate; try (now apply IH).
    rewrite (IH false Hl). reflexivity.
Qed.

Lemma locks_waiting (logger : string) (n : nat) :
  locks false (waiting logger n) = Some false /\
  sleeps_locked false (waiting logger n) = true.
Proof. induction n as [|n IH]; [now split | exact IH]. Qed.

Lemma locks_session (held : bool) (c : conn) (cur : cursor)
    (stmts : list string) (tail : list event) :
  locks held (session c cur stmts tail) = locks held tail.
Proof.
  unfold session. simpl.
  induction stmts as [|s stmts IH]; [reflexivity | exact IH].
Qed.

Lemma sleeps_session (held : bool) (c : conn) (cur : cursor)
    (stmts : list string) (tail : list event) :
  sleeps_locked held (session c cur stmts tail) = sleeps_locked held tail.
Proof.
  unfold session. simpl.
  induction stmts as [|s stmts IH]; [reflexivity | exact IH].
Qed.

Lemma get_connection_locks (fuel : nat) (cr : exn + conn) (p : DBPool) :
  locks false (snd (_get_connection fuel cr p)) = Some false /\
  sleeps_locked false (snd (_get_connection fuel cr p)) = true.
Proof.
  destruct (get_connection_inv fuel cr p); simpl snd.
  - now split.
  - subst cr. now split.
  - subst cr. now split.
  - apply locks_waiting.
Qed.

Lemma scoped_locks (V : Type) (rw : bool) (fuel : nat) (e : env V)
    (p : DBPool) :
  let t := snd (if rw then RWDBPool.transaction fuel e p
                else RODBPool.connection fuel e p) in
  locks false t = Some false /\ sleeps_locked false t = true.
Proof.
  pose proof (scoped_not_entered fuel e p) as Hout.
  pose proof (get_connection_locks fuel (connect_result e) p) as G.
  destruct (_get_connection fuel (connect_result e) p)
    as [[[c|x|] p1] t1] eqn:Hget; simpl snd in G.
  - destruct G as [Gl Gs].
    destruct (cursor_result e) as [x|cur] eqn:Hcur.
    + destruct Hout as [-> ->].
      destruct rw; cbv zeta; simpl snd;
        rewrite locks_app; erewrite sleeps_locked_app by exact Gl;
        rewrite Gl, Gs; now split.
    + on_paths e cur;
        destruct rw; cbv zeta; simpl snd;
        rewrite locks_app; erewrite sleeps_locked_app by exact Gl;
        rewrite Gl, Gs, locks_session, sleeps_session; now split.
  - destruct Hout as [-> ->]. now destruct rw.
  - destruct Hout as [-> ->]. now destruct rw.
Qed.

Lemma call_locks (V : Type) (k : call V) (p : DBPool) :
  locks false (snd (run_call k p)) = Some false /\
  sleeps_locked false (snd (run_call k p)) = true.
Proof.
  destruct k as [fuel cr|c|fuel e|fuel e]; simpl.
  - pose proof (get_connection_locks fuel cr p) as G.
    now destruct (_get_connection fuel cr p) as [[r p'] t].
  - now split.
  - pose proof (scoped_locks false fuel e p) as G. cbv zeta in G.
    now destruct (RODBPool.connection fuel e p) as [[r p'] t].
  - pose proof (scoped_locks true fuel e p) as G. cbv zeta in G.
    now destruct (RWDBPool.transaction fuel e p) as [[r p'] t].
Qed.

Lemma calls_locks (V : Type) (ks : list (call V)) (p : DBPool) :
  locks false (snd (run_calls ks p)) = Some false /\
  sleeps_locked false (snd (run_calls ks p)) = true.
Proof.
  revert p. induction ks as [|k ks IH]; intros p; simpl; [now split|].
  pose proof (call_locks k p) as [Kl Ks].
  destruct (run_call k p) as [p1 t1]. simpl snd in Kl, Ks.
  specialize (IH p1). destruct (run_calls ks p1) as [p2 t2].
  simpl snd in *. destruct IH as [Il Is].
  rewrite locks_app. erewrite sleeps_locked_app by exact Kl.
  now rewrite Kl, Ks, Il, Is.
Qed.

(** X3.  Along every sequence of calls on a pool, whatever each call's
    outcome, the lock is never acquired while held nor released while
    free, and it is free at the end: each call that took it has released
    it, also when [psycopg2.connect] raised inside [with self._lock]. *)
Theorem lock_released_after_calls (V : Type) (ks : list (call V))
    (p : DBPool) :
  locks false (snd (run_calls ks p)) = Some false.
Proof. apply calls_locks. Qed.

(** X2.  Along every sequence of calls, each [time.sleep(0.1)] happens
    inside [with self._lock]: a caller that waits for a connection holds
    the pool's lock while it sleeps. *)
Theorem sleeps_hold_the_lock (V : Type) (ks : list (call V)) (p : DBPool) :
  sleeps_locked false (snd (run_calls ks p)) = true.
Proof. apply calls_locks. Qed.

(** ** The pool as a stack *)

Lemma put_all_eq (cs : list conn) (p : DBPool) :
  put_all cs p
  = (Return tt, set_pool (_pool p ++ cs) p, map Pool_append cs).
Proof.
  revert p. induction cs as [|c cs IH]; intros p; simpl.
  - unfold ret. now rewrite app_nil_r, set_pool_same.
  - erewrite bind_return by apply put_connection_eq.
    rewrite IH. simpl. now rewrite <- app_assoc.
Qed.

Lemma get_all_rev (fuel : nat) (cr : exn + conn) (cs l : list conn)
    (p : DBPool) :
  _pool p = l ++ rev cs ->
  get_all (S fuel) (List.length cs) cr p
  = (Return cs, set_pool l p, flat_map popped cs).
Proof.
  revert p. induction cs as [|c cs IH]; intros p Hp.
  - simpl in *. rewrite app_nil_r in Hp. subst l.
    unfold ret. now rewrite set_pool_same.
  - simpl in Hp. rewrite app_assoc in Hp.
    cbn [get_all List.length].
    erewrite bind_return by (apply get_connection_pop; exact Hp).
    erewrite bind_return by (apply IH; reflexivity).
    unfold ret. cbn [flat_map]. now rewrite app_nil_r.
Qed.

(** X4.  The pool hands connections back last in, first out: after
    [_put_connection] of the connections of a list, in order, as many
    calls of [_get_connection] return them in reverse order, call
    [psycopg2.connect] for none, and leave the pool object as it was
    before the puts, whatever was idle then. *)
Theorem put_all_get_all_lifo (fuel : nat) (cr : exn + conn)
    (cs : list conn) (p : DBPool) :
  (put_all cs ;; get_all (S fuel) (List.length cs) cr) p
  = (Return (rev cs), p,
     map Pool_append cs ++ flat_map popped (rev cs)) /\
  count is_connect_call (map Pool_append cs ++ flat_map popped (rev cs))
  = 0%nat.
Proof.
  split.
  - erewrite bind_return by apply put_all_eq.
    rewrite <- (length_rev cs).
    erewrite get_all_rev
      by (simpl; rewrite rev_involutive; reflexivity).
    now destruct p.
  - rewrite count_app. unfold count.
    assert (H1 : filter is_connect_call (map Pool_append cs) = []).
    { clear. induction cs as [|c cs IH]; [reflexivity | exact IH]. }
    assert (H2 : forall l, filter is_connect_call (flat_map popped l) = []).
    { clear. induction l as [|c l IH]; [reflexivity | exact IH]. }
    now rewrite H1, H2.
Qed.

(** ** Sessions that give the connection back *)

(** X5.  A [with] block whose body returns (and, for [transaction()],
    whose [commit] returns) gives back what it took.  On a pool with an
    idle connection it returns the value of the body and leaves the pool
    object exactly as it found it; on an empty pool with room, it leaves
    the one connection it created as the only idle one, [_pool] being
    that connection alone, and [_conn_created] one higher than it was. *)
Theorem successful_session_pool (V : Type) (fuel : nat) (e : env V)
    (p : DBPool) (cur : cursor) (stmts : list string) (v : V) :
  cursor_result e = inr cur ->
  work e cur = (stmts, inr v) ->
  (_pool p <> [] ->
   fst (RODBPool.connection (S fuel) e p) = (Return v, p) /\
   (commit_result e = None ->
    fst (RWDBPool.transaction (S fuel) e p) = (Return v, p))) /\
  (_pool p = [] -> _conn_created p < _pool_size p ->
   forall c, connect_result e = inr c ->
   fst (RODBPool.connection (S fuel) e p)
   = (Return v, set_pool [c] (set_conn_created (_conn_created p + 1) p)) /\
   (commit_result e = None ->
    fst (RWDBPool.transaction (S fuel) e p)
    = (Return v, set_pool [c] (set_conn_created (_conn_created p + 1) p)) /\
    _pool (snd (fst (RWDBPool.transaction (S fuel) e p))) = [c] /\
    _conn_created (snd (fst (RWDBPool.transaction (S fuel) e p)))
    = _conn_created p + 1) /\
   _pool (snd (fst (RODBPool.connection (S fuel) e p))) = [c] /\
   _conn_created (snd (fst (RODBPool.connection (S fuel) e p)))
   = _conn_created p + 1).
Proof.
  intros Hcur Hw. split.
  - intros Hne.
    destruct (list_end (_pool p)) as [Hnil | (rest & c & Hl)];
      [contradiction|].
    assert (Hback : set_pool (_pool (set_pool rest p) ++ [c])
                             (set_pool rest p) = p)
      by (destruct p; simpl in *; now subst).
    split; [|intros Hc].
    + erewrite connection_returns
        by (try apply get_connection_pop; eassumption).
      cbn [fst]. now rewrite Hback.
    + erewrite transaction_commits
        by (try apply get_connection_pop; eassumption).
      cbn [fst]. now rewrite Hback.
  - intros Hnil Hroom c Hcr.
    assert (Hget : _get_connection (S fuel) (connect_result e) p
                   = (Return c, set_conn_created (_conn_created p + 1) p,
                      connected p (inr c)))
      by (rewrite Hcr; now apply get_connection_create).
    split; [|split; [intros Hc|]].
    + erewrite connection_returns by eassumption.
      simpl. now rewrite Hnil.
    + erewrite transaction_commits by eassumption.
      simpl. now rewrite Hnil.
    + erewrite connection_returns by eassumption.
      simpl. now rewrite Hnil.
Qed.

Lemma successful_session_pool_witness :
  fst (RWDBPool.transaction 1 env_update (set_pool [3%nat; 8%nat] writer_pool))
  = (Return 1, set_pool [3%nat; 8%nat] writer_pool) /\
  fst (RODBPool.connection 1 env_returning reader_pool)
  = (Return 42, set_pool [7%nat] (set_conn_created 1 reader_pool)).
Proof.
  split.
  - assert (Hne : [3%nat; 8%nat] <> @nil conn) by discriminate.
    exact (proj2 (proj1
      (@successful_session_pool Z 0 env_update
         (set_pool [3%nat; 8%nat] writer_pool) 1%nat
         ["UPDATE orders SET paid = true"] 1 eq_refl eq_refl) Hne)
      eq_refl).
  - assert (Hroom : 0 < 2) by lia.
    exact (proj1 (proj2
      (@successful_session_pool Z 0 env_returning reader_pool 1%nat
         ["SELECT * FROM orders"] 42 eq_refl eq_refl)
      eq_refl Hroom 7%nat eq_refl)).
Defined.

(** ** Sessions that do not *)

(** X7.  When [conn.cursor()] raises, [connection()] and [transaction()]
    raise that exception unchanged, a [psycopg2.Error] too, for the call
    stands before the [try]: the connection taken from the pool is not
    closed and not put back, and nothing is logged. *)
Theorem cursor_failure_leaks_connection (V : Type) (fuel : nat) (e : env V)
    (p p1 : DBPool) (c : conn) (t1 : list event) (x : exn) :
  _get_connection fuel (connect_result e) p = (Return c, p1, t1) ->
  cursor_result e = inl x ->
  RODBPool.connection fuel e p
  = (Raise x, p1, t1 ++ [Conn_cursor c (inl x)]) /\
  RWDBPool.transaction fuel e p
  = (Raise x, p1, t1 ++ [Conn_cursor c (inl x)]) /\
  count is_any_close (t1 ++ [Conn_cursor c (inl x)]) = 0%nat /\
  count (is_pool_append c) (t1 ++ [Conn_cursor c (inl x)]) = 0%nat.
Proof.
  intros Hget Hcur.
  pose proof (scoped_not_entered fuel e p) as Hout.
  rewrite Hget, Hcur in Hout. destruct Hout as [Hro Hrw].
  repeat split; try assumption;
    rewrite count_app;
    erewrite get_connection_quiet by (first [exact Hget | reflexivity]);
    reflexivity.
Qed.

Lemma cursor_failure_leaks_connection_witness :
  RODBPool.connection 1 env_cursor_fails (set_pool [5%nat] reader_pool)
  = (Raise (Psycopg2Error "InterfaceError" "connection already closed"),
     set_pool [] reader_pool,
     popped 5%nat
     ++ [Conn_cursor 5%nat
           (inl (Psycopg2Error "InterfaceError"
                               "connection already closed"))]).
Proof.
  exact (proj1
    (@cursor_failure_leaks_connection Z 1 env_cursor_fails
       (set_pool [5%nat] reader_pool) (set_pool [] reader_pool) 5%nat
       (popped 5%nat) _ eq_refl eq_refl)).
Defined.



(** ** [transaction()] beside [connection()] *)

Lemma erase_commits_app (t u : list event) :
  erase_commits (t ++ u) = erase_commits t ++ erase_commits u.
Proof. apply filter_app. Qed.

Lemma erase_commits_session (c : conn) (cur : cursor) (stmts : list string)
    (tail : list event) :
  erase_commits (session c cur stmts tail)
  = session c cur stmts (erase_commits tail).
Proof.
  unfold session, erase_commits. simpl. f_equal.
  rewrite filter_app. f_equal.
  induction stmts as [|s stmts IH]; [reflexivity|].
  simpl. now rewrite IH.
Qed.

Lemma erase_commits_waiting (logger : string) (n : nat) :
  erase_commits (waiting logger n) = waiting logger n.
Proof.
  induction n as [|n IH]; [reflexivity|].
  unfold erase_commits in *. simpl. now rewrite IH.
Qed.

Lemma erase_commits_get (fuel : nat) (cr : exn + conn) (p : DBPool) :
  erase_commits (snd (_get_connection fuel cr p))
  = snd (_get_connection fuel cr p).
Proof.
  destruct (get_connection_inv fuel cr p); simpl snd.
  - reflexivity.
  - subst cr. reflexivity.
  - subst cr. reflexivity.
  - apply erase_commits_waiting.
Qed.

(** X12.  [transaction()] is [connection()] with a [commit] before the
    connection is put back, and nothing else: when [commit] returns, the
    two have the same outcome and leave the same pool, and
    [transaction()]'s trace without its [commit] is [connection()]'s;
    when the with-body raises, they do the same altogether, so that
    [transaction()] calls neither [commit] nor [rollback]. *)
Theorem transaction_is_connection_plus_commit (V : Type) (fuel : nat)
    (e : env V) (p : DBPool) :
  (commit_result e = None ->
   fst (RWDBPool.transaction fuel e p) = fst (RODBPool.connection fuel e p) /\
   erase_commits (snd (RWDBPool.transaction fuel e p))
   = snd (RODBPool.connection fuel e p)) /\
  (forall cur x,
     cursor_result e = inr cur -> snd (work e cur) = inl x ->
     RWDBPool.transaction fuel e p = RODBPool.connection fuel e p).
Proof.
  pose proof (scoped_not_entered fuel e p) as Hout.
  pose proof (erase_commits_get fuel (connect_result e) p) as Hq.
  destruct (_get_connection fuel (connect_result e) p)
    as [[[c|x|] p1] t1] eqn:Hget; simpl snd in Hq.
  - destruct (cursor_result e) as [x|cur] eqn:Hcur.
    + destruct Hout as [-> ->]. split; [|intros ? ? Hc; discriminate Hc].
      intros _. split; [reflexivity|].
      simpl snd. now rewrite erase_commits_app, Hq.
    + split.
      * intros Hnone. on_paths e cur; try discriminate;
          (split; [reflexivity|]); simpl snd;
          now rewrite erase_commits_app, erase_commits_session, Hq.
      * intros cur' x Hc Hx. injection Hc as <-.
        on_paths e cur; try reflexivity;
          simpl in Hx; discriminate.
  - destruct Hout as [-> ->]. split; [|reflexivity].
    intros _. split; [reflexivity|exact Hq].
  - destruct Hout as [-> ->]. split; [|reflexivity].
    intros _. split; [reflexivity|exact Hq].
Qed.

Lemma transaction_is_connection_plus_commit_witness :
  erase_commits (snd (RWDBPool.transaction 1 env_update writer_pool))
  = snd (RODBPool.connection 1 env_update writer_pool) /\
  RWDBPool.transaction 1 env_db_error writer_pool
  = RODBPool.connection 1 env_db_error writer_pool.
Proof.
  split.
  - exact (proj2 (proj1
      (@transaction_is_connection_plus_commit Z 1 env_update writer_pool)
      eq_refl)).
  - exact (proj2
      (@transaction_is_connection_plus_commit Z 1 env_db_error writer_pool)
      1%nat (Psycopg2Error "ProgrammingError" "syntax error")
      eq_refl eq_refl).
Defined.

(** ** The pool after any call *)

(** What a [with] block adds to its [_get_connection]: a trace without
    [psycopg2.connect], and at most the connection appended, which
    happens when the block returns and otherwise not. *)
Lemma scoped_shape (V : Type) (rw : bool) (fuel : nat) (e : env V)
    (p : DBPool) :
  let '(r, p', t) :=
    if rw then RWDBPool.transaction fuel e p
    else RODBPool.connection fuel e p in
  let '(r1, p1, t1) := _get_connection fuel (connect_result e) p in
  (exists u, t = t1 ++ u /\ count is_connect_call u = 0%nat) /\
  match r1 with
  | Return c =>
      (p' = p1 /\ exists x, r = Raise x) \/
      (p' = set_pool (_pool p1 ++ [c]) p1 /\ exists v, r = Return v)
  | _ => p' = p1
  end.
Proof.
  pose proof (scoped_not_entered fuel e p) as Hout.
  destruct (_get_connection fuel (connect_result e) p)
    as [[[c|x|] p1] t1] eqn:Hget.
  - destruct (cursor_result e) as [x|cur] eqn:Hcur.
    + destruct Hout as [-> ->].
      destruct rw; (split; [eexists; now split | left; eauto]).
    + on_paths e cur; destruct rw;
        (split;
         [ eexists; split; [reflexivity | now apply count_session]
         | first [ left; split; [reflexivity | eexists; reflexivity]
                 | right; split; [reflexivity | eexists; reflexivity] ] ]).
  - destruct Hout as [-> ->].
    destruct rw; (split; [exists []; now rewrite app_nil_r | reflexivity]).
  - destruct Hout as [-> ->].
    destruct rw; (split; [exists []; now rewrite app_nil_r | reflexivity]).
Qed.

(** A connection returned by [_get_connection] has left the idle ones or
    been added to the created ones. *)
Lemma get_connection_gap (fuel : nat) (cr : exn + conn) (p p1 : DBPool)
    (c : conn) (t1 : list event) :
  _get_connection fuel cr p = (Return c, p1, t1) ->
  _conn_created p1 - Z.of_nat (List.length (_pool p1))
  = _conn_created p - Z.of_nat (List.length (_pool p)) + 1.
Proof.
  intros Hget.
  pose proof (get_connection_inv fuel cr p) as Hinv.
  rewrite Hget in Hinv.
  inversion Hinv as [rest c' _ Hl | c' _ Hnil _ _ | |]; subst.
  - simpl. rewrite Hl, length_app. simpl. lia.
  - simpl. rewrite Hnil. simpl. lia.
Qed.

Lemma call_gap (V : Type) (k : call V) (p : DBPool) :
  no_raw_put k = true ->
  _conn_created p - Z.of_nat (List.length (_pool p))
  <= _conn_created (fst (run_call k p))
     - Z.of_nat (List.length (_pool (fst (run_call k p)))).
Proof.
  intros Hk.
  assert (Hget : forall fuel cr,
             _conn_created p - Z.of_nat (List.length (_pool p))
             <= _conn_created (snd (fst (_get_connection fuel cr p)))
                - Z.of_nat (List.length
                              (_pool (snd (fst (_get_connection fuel cr p)))))).
  { intros fuel cr.
    destruct (_get_connection fuel cr p) as [[[c|x|] p1] t1] eqn:Hget;
      simpl.
    - apply get_connection_gap in Hget. lia.
    - apply get_connection_raise_inv in Hget.
      destruct Hget as (_ & -> & _). lia.
    - pose proof (get_connection_inv fuel cr p) as Hinv.
      rewrite Hget in Hinv. inversion Hinv. lia. }
  assert (Hscoped : forall (rw : bool) (fuel : nat) (e : env V),
             _conn_created p - Z.of_nat (List.length (_pool p))
             <= _conn_created
                  (snd (fst (if rw then RWDBPool.transaction fuel e p
                             else RODBPool.connection fuel e p)))
                - Z.of_nat (List.length
                     (_pool (snd (fst (if rw
                                       then RWDBPool.transaction fuel e p
                                       else RODBPool.connection fuel e p)))))).
  { intros rw fuel e.
    pose proof (scoped_shape rw fuel e p) as Hs.
    specialize (Hget fuel (connect_result e)).
    destruct (if rw then RWDBPool.transaction fuel e p
              else RODBPool.connection fuel e p) as [[r p'] t].
    destruct (_get_connection fuel (connect_result e) p)
      as [[[c|x|] p1] t1] eqn:Hg; simpl in *;
      destruct Hs as [_ Hs]; try (subst p'; exact Hget).
    apply get_connection_gap in Hg.
    destruct Hs as [[-> _] | [-> _]]; simpl; [lia|].
    rewrite length_app. simpl. lia. }
  destruct k as [fuel cr|c|fuel e|fuel e]; simpl in *; try discriminate.
  - specialize (Hget fuel cr).
    now destruct (_get_connection fuel cr p) as [[r p'] t].
  - specialize (Hscoped false fuel e). cbv iota in Hscoped.
    now destruct (RODBPool.connection fuel e p) as [[r p'] t].
  - specialize (Hscoped true fuel e). cbv iota in Hscoped.
    now destruct (RWDBPool.transaction fuel e p) as [[r p'] t].
Qed.

(** X9.  As long as [_put_connection] is called by the context managers
    only, there are never more idle connections than connections created:
    what holds of a pool before a sequence of calls of [_get_connection],
    [connection()] and [transaction()] holds after it, and it holds of a
    new pool. *)
Theorem idle_bounded_by_created (V : Type) (ks : list (call V))
    (p : DBPool) :
  forallb (@no_raw_put V) ks = true ->
  Z.of_nat (List.length (_pool p)) <= _conn_created p ->
  Z.of_nat (List.length (_pool (fst (run_calls ks p))))
  <= _conn_created (fst (run_calls ks p)).
Proof.
  revert p. induction ks as [|k ks IH]; intros p Hks Hp; [exact Hp|].
  simpl in Hks. apply andb_prop in Hks. destruct Hks as [Hk Hks].
  pose proof (call_gap k p Hk) as Hgap.
  simpl. destruct (run_call k p) as [p1 t1]. simpl fst in Hgap.
  specialize (IH p1 Hks).
  destruct (run_calls ks p1) as [p2 t2]. simpl fst in *.
  apply IH. lia.
Qed.

Lemma idle_bounded_by_created_witness :
  let ks : list (call Z) :=
    [Call_get_connection 1 (inr 4%nat);
     Call_transaction 1 env_db_error;
     Call_transaction 1 env_update] in
  let p := new_pool true "db" "pw" "writer" "carwash" 3 in
  _pool (fst (run_calls ks p)) = [7%nat] /\
  Z.of_nat (List.length (_pool (fst (run_calls ks p))))
  <= _conn_created (fst (run_calls ks p)).
Proof.
  split; [reflexivity|].
  assert (H0 : Z.of_nat (List.length (@nil conn)) <= 0) by (simpl; lia).
  exact (@idle_bounded_by_created Z
           [Call_get_connection 1 (inr 4%nat);
            Call_transaction 1 env_db_error;
            Call_transaction 1 env_update]
           (new_pool true "db" "pw" "writer" "carwash" 3) eq_refl H0).
Defined.

Lemma get_connection_nodup (fuel : nat) (cr : exn + conn) (p p1 : DBPool)
    (c : conn) (t1 : list event) :
  NoDup (_pool p) ->
  _get_connection fuel cr p = (Return c, p1, t1) ->
  ~ In c (_pool p1) /\ NoDup (_pool p1).
Proof.
  intros Hnd Hget.
  pose proof (get_connection_inv fuel cr p) as Hinv.
  rewrite Hget in Hinv.
  inversion Hinv as [rest c' _ Hl | c' _ Hnil _ _ | |]; subst; simpl.
  - rewrite Hl in Hnd. apply NoDup_remove in Hnd.
    rewrite app_nil_r in Hnd. tauto.
  - rewrite Hnil. split; [intros [] | constructor].
Qed.

(** X10.  On a pool in which no connection is idle twice, the connection
    of a [with] block that ends with an exception, closed or not, is not
    among the idle ones afterwards, and still no connection is idle
    twice: the pool does not hand that connection out again. *)
Theorem failed_session_connection_not_idle (V : Type) (fuel : nat)
    (e : env V) (p p1 p' : DBPool) (c : conn) (t1 t : list event)
    (x : exn) :
  NoDup (_pool p) ->
  _get_connection fuel (connect_result e) p = (Return c, p1, t1) ->
  RODBPool.connection fuel e p = (Raise x, p', t) \/
  RWDBPool.transaction fuel e p = (Raise x, p', t) ->
  ~ In c (_pool p') /\ NoDup (_pool p').
Proof.
  intros Hnd Hget Hrun.
  assert (Hp : p' = p1).
  { destruct Hrun as [Hrun | Hrun].
    - pose proof (scoped_shape false fuel e p) as Hs. cbv iota in Hs.
      rewrite Hrun, Hget in Hs.
      destruct Hs as [_ [[Hp _] | [_ [v Hv]]]]; [exact Hp | discriminate].
    - pose proof (scoped_shape true fuel e p) as Hs. cbv iota in Hs.
      rewrite Hrun, Hget in Hs.
      destruct Hs as [_ [[Hp _] | [_ [v Hv]]]]; [exact Hp | discriminate]. }
  subst p'. eapply get_connection_nodup; eassumption.
Qed.

Lemma failed_session_connection_not_idle_witness :
  ~ In 8%nat
      (_pool (snd (fst (RWDBPool.transaction 1 env_commit_fails
                          (set_pool [3%nat; 8%nat] writer_pool))))).
Proof.
  assert (Hnd : NoDup [3%nat; 8%nat]).
  { constructor; [intros [H|[]]; discriminate H|].
    constructor; [intros []|constructor]. }
  exact (proj1
    (@failed_session_connection_not_idle Z 1 env_commit_fails
       (set_pool [3%nat; 8%nat] writer_pool) (set_pool [3%nat] writer_pool)
       _ 8%nat (popped 8%nat) _ _ Hnd eq_refl (or_intror eq_refl))).
Defined.

(** ** Capacity that does not come back *)

Lemma losing_session_pool (V : Type) (fuel : nat) (e : env V) (p : DBPool) :
  _pool p = [] -> _conn_created p < _pool_size p ->
  (loses_connection false e = true ->
   snd (fst (RODBPool.connection (S fuel) e p))
   = set_conn_created (_conn_created p + 1) p) /\
  (loses_connection true e = true ->
   snd (fst (RWDBPool.transaction (S fuel) e p))
   = set_conn_created (_conn_created p + 1) p).
Proof.
  intros Hnil Hroom. unfold loses_connection.
  pose proof (scoped_not_entered (S fuel) e p) as Hout.
  destruct (connect_result e) as [x|c] eqn:Hcr; [now split|].
  rewrite (get_connection_create fuel p c Hnil Hroom) in Hout.
  destruct (cursor_result e) as [x|cur] eqn:Hcur.
  - destruct Hout as [-> ->]. now split.
  - assert (Hget : _get_connection (S fuel) (connect_result e) p
                   = (Return c, set_conn_created (_conn_created p + 1) p,
                      connected p (inr c)))
      by (rewrite Hcr; now apply get_connection_create).
    on_paths e cur; now split.
Qed.

Lemma losing_call_step (V : Type) (k : call V) (p : DBPool) :
  _pool p = [] -> _conn_created p < _pool_size p ->
  losing_call k = true ->
  fst (run_call k p) = set_conn_created (_conn_created p + 1) p.
Proof.
  intros Hnil Hroom Hk.
  destruct k as [fuel cr|c|[|fuel] e|[|fuel] e]; try discriminate;
    simpl in Hk |- *;
    destruct (losing_session_pool fuel e p Hnil Hroom) as [Hro Hrw].
  - specialize (Hro Hk).
    now destruct (RODBPool.connection (S fuel) e p) as [[r p'] t].
  - specialize (Hrw Hk).
    now destruct (RWDBPool.transaction (S fuel) e p) as [[r p'] t].
Qed.

(** X6.  A slot lost is lost for good.  On a pool with nothing idle, let
    [_pool_size - _conn_created] with-blocks in a row each create their
    connection and not reach [_put_connection] (their [cursor()], their
    body or their [commit] raises).  Then nothing is idle,
    [_conn_created] has reached [_pool_size], and from there every
    [_get_connection] waits without end, however many passes it is
    given. *)
Theorem losing_sessions_exhaust_pool (V : Type) (ks : list (call V))
    (p : DBPool) :
  _pool p = [] ->
  forallb (@losing_call V) ks = true ->
  _conn_created p + Z.of_nat (List.length ks) = _pool_size p ->
  _pool (fst (run_calls ks p)) = [] /\
  _conn_created (fst (run_calls ks p)) = _pool_size (fst (run_calls ks p)) /\
  forall fuel cr,
    fst (fst (_get_connection fuel cr (fst (run_calls ks p)))) = Blocked.
Proof.
  revert p. induction ks as [|k ks IH]; intros p Hnil Hks Hn.
  - simpl in *. repeat split; try assumption; try lia.
    intros fuel cr. rewrite get_connection_blocked by (assumption || lia).
    reflexivity.
  - simpl in Hks. apply andb_prop in Hks. destruct Hks as [Hk Hks].
    assert (Hroom : _conn_created p < _pool_size p)
      by (simpl List.length in Hn; lia).
    pose proof (losing_call_step k p Hnil Hroom Hk) as Hstep.
    simpl. destruct (run_call k p) as [p1 t1]. simpl fst in Hstep.
    subst p1.
    specialize (IH (set_conn_created (_conn_created p + 1) p)).
    destruct (run_calls ks (set_conn_created (_conn_created p + 1) p))
      as [p2 t2]. simpl fst in *.
    apply IH; [exact Hnil | exact Hks |].
    simpl List.length in Hn. simpl. lia.
Qed.

Lemma losing_sessions_exhaust_pool_witness :
  let ks : list (call Z) :=
    [Call_connection 1 env_value_error; Call_transaction 1 env_commit_fails]
  in
  fst (fst (_get_connection 5 (inr 9%nat) (fst (run_calls ks writer_pool))))
  = Blocked.
Proof.
  assert (Hn : 0 + Z.of_nat 2 = 2) by reflexivity.
  exact (proj2 (proj2
    (@losing_sessions_exhaust_pool Z
       [Call_connection 1 env_value_error;
        Call_transaction 1 env_commit_fails]
       writer_pool eq_refl eq_refl Hn)) 5%nat (inr 9%nat)).
Defined.

(** ** What [__init__] was given *)

Lemma quiet_connects_as (p : DBPool) (u : list event) :
  count is_connect_call u = 0%nat -> Forall (connects_as p) u.
Proof.
  unfold count. induction u as [|ev u IH]; intros Hu; [constructor|].
  simpl in Hu. destruct (is_connect_call ev) eqn:Hev; [discriminate|].
  constructor; [|now apply IH].
  destruct ev; try exact I. discriminate.
Qed.

Lemma connects_as_configuration (p p1 : DBPool) (t : list event) :
  configuration p1 = configuration p ->
  Forall (connects_as p1) t -> Forall (connects_as p) t.
Proof.
  unfold configuration. intros Hc Ht.
  injection Hc as Hh Hpw Hu Hd _ _.
  eapply Forall_impl; [|exact Ht].
  intros ev. destruct ev; simpl; try tauto.
  now rewrite Hh, Hpw, Hu, Hd.
Qed.

Lemma get_connection_configuration (fuel : nat) (cr : exn + conn)
    (p : DBPool) :
  configuration (snd (fst (_get_connection fuel cr p))) = configuration p /\
  Forall (connects_as p) (snd (_get_connection fuel cr p)).
Proof.
  destruct (get_connection_inv fuel cr p); simpl; (split; [reflexivity|]).
  - repeat constructor.
  - subst cr. repeat constructor.
  - subst cr. repeat constructor.
  - apply quiet_connects_as. now apply count_waiting.
Qed.

Lemma call_configuration (V : Type) (k : call V) (p : DBPool) :
  configuration (fst (run_call k p)) = configuration p /\
  Forall (connects_as p) (snd (run_call k p)).
Proof.
  assert (Hscoped : forall (rw : bool) (fuel : nat) (e : env V),
             let r := if rw then RWDBPool.transaction fuel e p
                      else RODBPool.connection fuel e p in
             configuration (snd (fst r)) = configuration p /\
             Forall (connects_as p) (snd r)).
  { intros rw fuel e. cbv zeta.
    pose proof (scoped_shape rw fuel e p) as Hs.
    pose proof (get_connection_configuration fuel (connect_result e) p)
      as [Gc Gt].
    destruct (if rw then RWDBPool.transaction fuel e p
              else RODBPool.connection fuel e p) as [[r p'] t].
    destruct (_get_connection fuel (connect_result e) p) as [[r1 p1] t1].
    simpl in *. destruct Hs as [(u & -> & Hu) Hp]. split.
    - destruct r1 as [c|x|]; [destruct Hp as [[-> _] | [-> _]] | |];
        subst; exact Gc.
    - apply Forall_app. split; [exact Gt | now apply quiet_connects_as]. }
  destruct k as [fuel cr|c|fuel e|fuel e]; simpl.
  - pose proof (get_connection_configuration fuel cr p) as G.
    now destruct (_get_connection fuel cr p) as [[r p'] t].
  - split; [reflexivity | repeat constructor].
  - specialize (Hscoped false fuel e). cbv zeta iota in Hscoped.
    now destruct (RODBPool.connection fuel e p) as [[r p'] t].
  - specialize (Hscoped true fuel e). cbv zeta iota in Hscoped.
    now destruct (RWDBPool.transaction fuel e p) as [[r p'] t].
Qed.

(** X11.  No method assigns again what [__init__] was given: after every
    sequence of calls the host name, password, user name, database name,
    pool size and logger of the pool are what they were, and every call
    of [psycopg2.connect] along the way was made with that database name,
    user name, password and host name. *)
Theorem calls_keep_configuration (V : Type) (ks : list (call V))
    (p : DBPool) :
  configuration (fst (run_calls ks p)) = configuration p /\
  Forall (connects_as p) (snd (run_calls ks p)).
Proof.
  revert p. induction ks as [|k ks IH]; intros p; simpl.
  - split; [reflexivity | constructor].
  - pose proof (call_configuration k p) as [Kc Kt].
    destruct (run_call k p) as [p1 t1]. simpl in Kc, Kt.
    specialize (IH p1). destruct (run_calls ks p1) as [p2 t2].
    simpl in *. destruct IH as [Ic It]. split.
    + now rewrite Ic.
    + apply Forall_app. split; [exact Kt|].
      eapply connects_as_configuration; eassumption.
Qed.

(** ** Failures the [except] clause does not take *)

(** X14.  When the with-body of [connection()] or [transaction()] raises
    an exception that is no [psycopg2.Error], the caller gets that very
    exception; nothing is logged, the connection is neither closed nor
    put back, no [commit] is tried, and only the cursor is closed. *)
Theorem other_failure_propagates_unchanged (V : Type) (fuel : nat)
    (e : env V) (p p1 : DBPool) (c : conn) (t1 : list event) (cur : cursor)
    (stmts : list string) (x : exn) :
  _get_connection fuel (connect_result e) p = (Return c, p1, t1) ->
  cursor_result e = inr cur ->
  work e cur = (stmts, inl x) ->
  is_psycopg2_Error x = false ->
  let t := t1 ++ session c cur stmts [Cursor_close cur] in
  RODBPool.connection fuel e p = (Raise x, p1, t) /\
  RWDBPool.transaction fuel e p = (Raise x, p1, t) /\
  count is_any_close t = 0%nat /\
  count (is_pool_append c) t = 0%nat /\
  count is_any_commit t = 0%nat.
Proof.
  intros Hget Hcur Hw Hx t. subst t.
  split; [now apply connection_other_error|].
  split; [now apply transaction_other_error|].
  repeat split; now count_trace Hget.
Qed.

Lemma other_failure_propagates_unchanged_witness :
  RWDBPool.transaction 1 env_value_error writer_pool
  = (Raise (PyException "ValueError" "bad plate number"),
     set_conn_created 1 writer_pool,
     connected writer_pool (inr 7%nat)
     ++ session 7%nat 1%nat ["SELECT * FROM cars"] [Cursor_close 1%nat]).
Proof.
  exact (proj1 (proj2
    (@other_failure_propagates_unchanged Z 1 env_value_error writer_pool
       (set_conn_created 1 writer_pool) 7%nat
       (connected writer_pool (inr 7%nat)) 1%nat ["SELECT * FROM cars"]
       (PyException "ValueError" "bad plate number")
       eq_refl eq_refl eq_refl eq_refl))).
Defined.

(** X15.  When the with-body of [transaction()] returns and [commit]
    raises, a [psycopg2.Error] or not, the caller gets the exception of
    [commit] as it is, for [commit] stands in the [else] clause: nothing
    is logged, the connection is neither closed nor put back, and the
    cursor is closed. *)
Theorem commit_failure_propagates_unchanged (V : Type) (fuel : nat)
    (e : env V) (p p1 : DBPool) (c : conn) (t1 : list event) (cur : cursor)
    (stmts : list string) (v : V) (x : exn) :
  _get_connection fuel (connect_result e) p = (Return c, p1, t1) ->
  cursor_result e = inr cur ->
  work e cur = (stmts, inr v) ->
  commit_result e = Some x ->
  let t := t1 ++ session c cur stmts
                   [Conn_commit c (Some x); Cursor_close cur] in
  RWDBPool.transaction fuel e p = (Raise x, p1, t) /\
  count is_any_close t = 0%nat /\
  count (is_pool_append c) t = 0%nat /\
  count (is_cursor_close cur) t = 1%nat.
Proof.
  intros Hget Hcur Hw Hc t. subst t.
  split; [eapply transaction_commit_fails; eassumption|].
  repeat split; now count_trace Hget.
Qed.

Lemma commit_failure_propagates_unchanged_witness :
  fst (RWDBPool.transaction 1 env_commit_fails writer_pool)
  = (Raise (Psycopg2Error "OperationalError"
                          "server closed the connection unexpectedly"),
     set_conn_created 1 writer_pool).
Proof.
  pose proof (proj1
    (@commit_failure_propagates_unchanged Z 1 env_commit_fails writer_pool
       (set_conn_created 1 writer_pool) 7%nat
       (connected writer_pool (inr 7%nat)) 1%nat
       ["UPDATE orders SET paid = true"] 1
       (Psycopg2Error "OperationalError"
                      "server closed the connection unexpectedly")
       eq_refl eq_refl eq_refl eq_refl)) as H.
  rewrite H. reflexivity.
Defined.
